(** * csv-pals: the parse-csv edge function

    A shallow embedding of [supabase/functions/parse-csv/index.ts].  The file
    exists in two variants in the repository: the strict one (validation,
    sanitisation, role check, random passwords) and the permissive one (no
    validation, derived passwords).  The strict variant keeps the source's
    names; the permissive one lives in [Module Permissive].

    JavaScript strings are sequences of UTF-16 code units, modelled as
    [list N].  JavaScript numbers that the code uses as indices, lengths and
    years are modelled as [Z]. *)

From Stdlib Require Import String Ascii Numbers.DecimalString.
From Stdlib Require Import List NArith ZArith Bool Lia.
Import ListNotations.


(** ** JavaScript strings and the built-ins the code calls *)

Definition jsstring : Type := list N.

(** A string literal of the source, as code units. *)
Definition lit (s : string) : jsstring :=
  map N_of_ascii (list_ascii_of_string s).
Arguments lit s%_string.

(** [String(n)] for an integer number. *)
Definition showZ (z : Z) : jsstring :=
  lit (NilEmpty.string_of_int (Z.to_int z)).

(** [s.length] *)
Definition strlen (s : jsstring) : Z := Z.of_nat (length s).

Definition isEmpty {A} (l : list A) : bool :=
  match l with [] => true | _ => false end.

(** ECMAScript WhiteSpace and LineTerminator code units: what [trim] strips
    and what the regex class [\s] matches. *)
Definition isWhiteSpace (c : N) : bool :=
  (((9 <=? c) && (c <=? 13)) || (c =? 32) || (c =? 160) || (c =? 5760)
   || ((8192 <=? c) && (c <=? 8202)) || (c =? 8232) || (c =? 8233)
   || (c =? 8239) || (c =? 8287) || (c =? 12288) || (c =? 65279))%N.

Definition isUpperAZ (c : N) : bool := ((65 <=? c) && (c <=? 90))%N.
Definition isLowerAZ (c : N) : bool := ((97 <=? c) && (c <=? 122))%N.
(** regex class [\d] *)
Definition isDigit (c : N) : bool := ((48 <=? c) && (c <=? 57))%N.
Definition isAscii (c : N) : bool := (c <? 128)%N.

Definition lowerAscii (c : N) : N := if isUpperAZ c then (c + 32)%N else c.
Definition upperAscii (c : N) : N := if isLowerAZ c then (c - 32)%N else c.

(** [toLowerCase] and [toUpperCase] follow the Unicode case tables, which
    are context sensitive and may change the length.  The development uses
    only what they do on ASCII strings, so they are an interface with that
    law; [asciiCase] below is the instance used to run the model. *)
Class CaseMapping : Type := {
  toLowerCase : jsstring -> jsstring;
  toUpperCase : jsstring -> jsstring;
  toLowerCase_ascii :
    forall s, forallb isAscii s = true -> toLowerCase s = map lowerAscii s;
  toUpperCase_ascii :
    forall s, forallb isAscii s = true -> toUpperCase s = map upperAscii s
}.

#[export] Instance asciiCase : CaseMapping := {|
  toLowerCase := map lowerAscii;
  toUpperCase := map upperAscii;
  toLowerCase_ascii := fun s _ => eq_refl;
  toUpperCase_ascii := fun s _ => eq_refl
|}.

(** [s.trimStart()], [s.trimEnd()], [s.trim()] *)
Fixpoint trimStart (s : jsstring) : jsstring :=
  match s with
  | [] => []
  | c :: r => if isWhiteSpace c then trimStart r else s
  end.

Fixpoint trimEnd (s : jsstring) : jsstring :=
  match s with
  | [] => []
  | c :: r =>
      match trimEnd r with
      | [] => if isWhiteSpace c then [] else [c]
      | r' => c :: r'
      end
  end.

Definition trim (s : jsstring) : jsstring := trimEnd (trimStart s).

(** [s.startsWith(p)] *)
Fixpoint startsWith (p s : jsstring) : bool :=
  match p, s with
  | [], _ => true
  | _ :: _, [] => false
  | a :: p', b :: s' => (a =? b)%N && startsWith p' s'
  end.

(** [s.includes(sub)] *)
Fixpoint includes (s sub : jsstring) : bool :=
  startsWith sub s ||
  match s with
  | [] => false
  | _ :: r => includes r sub
  end.

(** [a === b] on strings *)
Fixpoint streq (a b : jsstring) : bool :=
  match a, b with
  | [], [] => true
  | x :: a', y :: b' => (x =? y)%N && streq a' b'
  | _, _ => false
  end.

(** [s.substring(1)] *)
Definition substring1 (s : jsstring) : jsstring := tl s.

(** [s.split(sep)] for a one-unit separator; [splitOn p] cuts at every unit
    that satisfies [p].  The empty string gives one empty part. *)
Fixpoint splitOn (p : N -> bool) (s : jsstring) : list jsstring :=
  match s with
  | [] => [[]]
  | c :: r =>
      if p c then [] :: splitOn p r
      else match splitOn p r with
           | [] => [[c]]
           | w :: ws => (c :: w) :: ws
           end
  end.

Definition split (sep : N) (s : jsstring) : list jsstring :=
  splitOn (N.eqb sep) s.

(** [parts.join(sep)] *)
Fixpoint join (sep : jsstring) (parts : list jsstring) : jsstring :=
  match parts with
  | [] => []
  | [p] => p
  | p :: rest => p ++ sep ++ join sep rest
  end.

(** [l.findIndex(p)]: the first position, or -1. *)
Fixpoint findIndexFrom {A} (p : A -> bool) (i : Z) (l : list A) : Z :=
  match l with
  | [] => (-1)%Z
  | x :: r => if p x then i else findIndexFrom p (i + 1)%Z r
  end.

Definition findIndex {A} (p : A -> bool) (l : list A) : Z :=
  findIndexFrom p 0%Z l.

(** [l[i]]: [None] is [undefined], for a negative or too large index. *)
Definition at_ {A} (l : list A) (i : Z) : option A :=
  if (i <? 0)%Z then None else nth_error l (Z.to_nat i).

(** [s.replace(/^["']|["']$/g, "")]: one leading quote and, in what is
    left, one trailing quote. *)
Definition isQuote (c : N) : bool := ((c =? 34) || (c =? 39))%N.

Definition stripLeadingQuote (s : jsstring) : jsstring :=
  match s with
  | c :: r => if isQuote c then r else s
  | [] => []
  end.

Fixpoint stripTrailingQuote (s : jsstring) : jsstring :=
  match s with
  | [] => []
  | [c] => if isQuote c then [] else [c]
  | c :: r => c :: stripTrailingQuote r
  end.

Definition stripQuotes (s : jsstring) : jsstring :=
  stripTrailingQuote (stripLeadingQuote s).

(** [s.replace(/\s+/g, ".")]: [inRun] says that the previous unit was
    white space, whose run has already been replaced. *)
Fixpoint replaceWsRuns (inRun : bool) (s : jsstring) : jsstring :=
  match s with
  | [] => []
  | c :: r =>
      if isWhiteSpace c
      then (if inRun then [] else [46%N]) ++ replaceWsRuns true r
      else c :: replaceWsRuns false r
  end.

(** [parseInt(s, 10)]: leading white space, an optional sign, then the
    longest run of digits; [None] is NaN. *)
Fixpoint digitsValue (acc : Z) (s : jsstring) : Z :=
  match s with
  | [] => acc
  | c :: r => if isDigit c then digitsValue (10 * acc + Z.of_N (c - 48)) r
              else acc
  end.

Definition parseDigits (s : jsstring) : option Z :=
  match s with
  | c :: _ => if isDigit c then Some (digitsValue 0 s) else None
  | [] => None
  end.

Definition parseInt10 (s : jsstring) : option Z :=
  match trimStart s with
  | [] => None
  | c :: r =>
      if (c =? 45)%N then option_map Z.opp (parseDigits r)
      else if (c =? 43)%N then parseDigits r
      else parseDigits (c :: r)
  end.

(** [a < b] and [a > b] on numbers, false when one side is NaN. *)
Definition numLt (a : option Z) (b : Z) : bool :=
  match a with Some x => (x <? b)%Z | None => false end.
Definition numGt (a : option Z) (b : Z) : bool :=
  match a with Some x => (x >? b)%Z | None => false end.

(** What a function call produces: a value or a thrown [Error] with its
    message. *)
Inductive outcome (A : Type) : Type :=
| Return (a : A)
| Throw (message : jsstring).
Arguments Return {A} a.
Arguments Throw {A} message.

Definition unwrap (e : option jsstring) : jsstring :=
  match e with Some m => m | None => lit "undefined" end.

(** ** The strict variant *)

Record CSVRow : Type := {
  name : option jsstring;
  postal_code : option jsstring;
  birthday : option jsstring
}.

Record GeneratedUser : Type := {
  full_name : option jsstring;
  gu_postal_code : option jsstring;
  gu_birthday : option jsstring;
  generated_email : jsstring;
  generated_password : jsstring
}.

(** The result object of the three validators. *)
Record validation : Type := { valid : bool; error : option jsstring }.

Definition ok : validation := {| valid := true; error := None |}.
Definition invalid (msg : jsstring) : validation :=
  {| valid := false; error := Some msg |}.

(** [/^[a-zA-Z\s\-'.]+$/] *)
Definition nameClass (c : N) : bool :=
  isLowerAZ c || isUpperAZ c || isWhiteSpace c
  || (c =? 45)%N || (c =? 39)%N || (c =? 46)%N.

Definition namePattern (s : jsstring) : bool :=
  negb (isEmpty s) && forallb nameClass s.

(** [/^[A-Z0-9\s\-]+$/i]: without the [u] flag the [i] flag canonicalises a
    unit through its upper case and never maps a unit above 127 into ASCII,
    so the class accepts the ASCII letters of both cases. *)
Definition postalClass (c : N) : bool :=
  isUpperAZ c || isLowerAZ c || isDigit c || isWhiteSpace c || (c =? 45)%N.

Definition postalPattern (s : jsstring) : bool :=
  negb (isEmpty s) && forallb postalClass s.

(** [/^\d{4}-\d{2}-\d{2}$/] *)
Definition birthdayPattern (s : jsstring) : bool :=
  match s with
  | [y1; y2; y3; y4; h1; m1; m2; h2; d1; d2] =>
      isDigit y1 && isDigit y2 && isDigit y3 && isDigit y4 && (h1 =? 45)%N
      && isDigit m1 && isDigit m2 && (h2 =? 45)%N && isDigit d1 && isDigit d2
  | _ => false
  end.

Record rules : Type := {
  name_maxLength : Z;
  name_pattern : jsstring -> bool;
  postal_code_maxLength : Z;
  postal_code_pattern : jsstring -> bool;
  birthday_pattern : jsstring -> bool;
  birthday_minYear : Z;
  birthday_maxYear : Z;
  maxRows : Z;
  maxFileSize : Z
}.

Definition sanitizeCSVValue (value : jsstring) : jsstring :=
  let trimmed := stripQuotes (trim value) in
  if startsWith (lit "=") trimmed || startsWith (lit "+") trimmed
     || startsWith (lit "-") trimmed || startsWith (lit "@") trimmed
  then substring1 trimmed
  else trimmed.

(** What [replace(/[^a-z\s]/g, "")] keeps: the letters [a-z] and the
    white space. *)
Definition letterOrSpace (c : N) : bool := isLowerAZ c || isWhiteSpace c.

Definition charset : jsstring :=
  lit "ABCDEFGHIJKLMNOPQRSTUVWXYZabcdefghijklmnopqrstuvwxyz0123456789!@#$%^&*".

(** [crypto.getRandomValues] fills the [Uint8Array] from the platform's
    random source, here the stream [entropy]; an array cell keeps the low
    eight bits.  [join('')] prints an [undefined] cell as nothing. *)
Definition generateSecurePassword (length : nat) (entropy : nat -> N)
  : jsstring :=
  let array := map (fun i => (entropy i mod 256)%N) (seq 0 length) in
  flat_map
    (fun x => match at_ charset (Z.of_N x mod strlen charset) with
              | Some c => [c]
              | None => []
              end)
    array.

Section Strict.

Context {CM : CaseMapping}.

(** [new Date().getFullYear()] when the module is loaded. *)
Variable currentYear : Z.

Definition VALIDATION : rules := {|
  name_maxLength := 100;
  name_pattern := namePattern;
  postal_code_maxLength := 20;
  postal_code_pattern := postalPattern;
  birthday_pattern := birthdayPattern;
  birthday_minYear := 1900;
  birthday_maxYear := currentYear;
  maxRows := 1000;
  maxFileSize := 5 * 1024 * 1024
|}.

Definition validateName (name : option jsstring) : validation :=
  match name with
  | None => invalid (lit "Name is required")
  | Some name =>
      if (strlen name =? 0)%Z then invalid (lit "Name is required")
      else if (strlen name >? name_maxLength VALIDATION)%Z
      then invalid (lit "Name must be less than "
                      ++ showZ (name_maxLength VALIDATION)
                      ++ lit " characters")
      else if negb (name_pattern VALIDATION name)
      then invalid (lit "Name contains invalid characters")
      else ok
  end.

Definition validatePostalCode (postalCode : option jsstring) : validation :=
  match postalCode with
  | None => invalid (lit "Postal code is required")
  | Some postalCode =>
      if (strlen postalCode =? 0)%Z then invalid (lit "Postal code is required")
      else if (strlen postalCode >? postal_code_maxLength VALIDATION)%Z
      then invalid (lit "Postal code must be less than "
                      ++ showZ (postal_code_maxLength VALIDATION)
                      ++ lit " characters")
      else if negb (postal_code_pattern VALIDATION postalCode)
      then invalid (lit "Postal code contains invalid characters")
      else ok
  end.

(** The year the validator reads: [parseInt(birthday.split("-")[0], 10)]. *)
Definition birthYear (birthday : jsstring) : option Z :=
  parseInt10 (hd [] (split 45 birthday)).

Definition validateBirthday (birthday : option jsstring) : validation :=
  match birthday with
  | None => invalid (lit "Birthday is required")
  | Some birthday =>
      if (strlen birthday =? 0)%Z then invalid (lit "Birthday is required")
      else if negb (birthday_pattern VALIDATION birthday)
      then invalid (lit "Birthday must be in YYYY-MM-DD format")
      else
        let year := birthYear birthday in
        if numLt year (birthday_minYear VALIDATION)
           || numGt year (birthday_maxYear VALIDATION)
        then invalid (lit "Birth year must be between "
                        ++ showZ (birthday_minYear VALIDATION)
                        ++ lit " and "
                        ++ showZ (birthday_maxYear VALIDATION))
        else ok
  end.

Definition generateEmail (name : jsstring) : jsstring :=
  let cleanName :=
    replaceWsRuns false
      (filter letterOrSpace (trim (toLowerCase name))) in
  cleanName ++ lit "@company.com".

Definition isNameHeader (h : jsstring) : bool :=
  includes h (lit "name") || streq h (lit "full_name")
  || streq h (lit "fullname").

Definition isPostalHeader (h : jsstring) : bool :=
  includes h (lit "postal") || includes h (lit "zip")
  || streq h (lit "postal_code") || streq h (lit "postalcode").

Definition isBirthdayHeader (h : jsstring) : bool :=
  includes h (lit "birth") || includes h (lit "dob")
  || streq h (lit "birthday") || streq h (lit "date_of_birth").

Definition rowError (i : Z) (v : validation) : jsstring :=
  lit "Row " ++ showZ i ++ lit ": " ++ unwrap (error v).

(** The fields of one data line: [line.split(",").map(sanitizeCSVValue)]. *)
Definition fieldsOf (line : jsstring) : list jsstring :=
  map sanitizeCSVValue (split 44 line).

(** One turn of the row loop on a non-blank line: the error to push, or
    the row to push. *)
Definition checkRow (nameIndex postalIndex birthdayIndex i : Z)
  (line : jsstring) : jsstring + CSVRow :=
  let values := fieldsOf line in
  let name := at_ values nameIndex in
  let postal_code := at_ values postalIndex in
  let birthday := at_ values birthdayIndex in
  let nameValidation := validateName name in
  if negb (valid nameValidation) then inl (rowError i nameValidation)
  else
    let postalValidation := validatePostalCode postal_code in
    if negb (valid postalValidation) then inl (rowError i postalValidation)
    else
      let birthdayValidation := validateBirthday birthday in
      if negb (valid birthdayValidation)
      then inl (rowError i birthdayValidation)
      else inr {| name := name; postal_code := postal_code;
                  birthday := birthday |}.

(** The loop [for (i = 1; i < lines.length; i++)] over the data lines
    [lines[i], lines[i+1], ...]: the arrays [rows] and [errors] in push
    order. *)
Fixpoint rowLoop (nameIndex postalIndex birthdayIndex i : Z)
  (dataLines : list jsstring) : list CSVRow * list jsstring :=
  match dataLines with
  | [] => ([], [])
  | l :: rest =>
      let line := trim l in
      let rest' := rowLoop nameIndex postalIndex birthdayIndex (i + 1) rest in
      if isEmpty line then rest'
      else match checkRow nameIndex postalIndex birthdayIndex i line with
           | inl e => (fst rest', e :: snd rest')
           | inr row => (row :: fst rest', snd rest')
           end
  end.

(** [csvContent.trim().split("\n").filter(line => line.trim().length > 0)] *)
Definition linesOf (csvContent : jsstring) : list jsstring :=
  filter (fun line => (strlen (trim line) >? 0)%Z)
    (split 10 (trim csvContent)).

(** [headerLine.split(",").map(h => sanitizeCSVValue(h).toLowerCase())] *)
Definition headersOf (headerLine : jsstring) : list jsstring :=
  map (fun h => toLowerCase (sanitizeCSVValue h)) (split 44 headerLine).

Definition missingName : jsstring :=
  lit "name (e.g., 'name', 'full_name', 'fullname')".
Definition missingPostal : jsstring :=
  lit "postal code (e.g., 'postal_code', 'zip', 'postal')".
Definition missingBirthday : jsstring :=
  lit "birthday (e.g., 'birthday', 'birth', 'dob', 'date_of_birth')".

Definition tooLarge : jsstring :=
  lit "CSV file is too large. Maximum size is "
  ++ showZ (maxFileSize VALIDATION / (1024 * 1024)) ++ lit "MB".
Definition needsDataRow : jsstring :=
  lit "CSV must contain headers and at least one data row".
Definition tooManyRows : jsstring :=
  lit "CSV has too many rows. Maximum is "
  ++ showZ (maxRows VALIDATION) ++ lit " rows".

Definition missingColumns (nameIndex postalIndex birthdayIndex : Z)
  : list jsstring :=
  (if (nameIndex =? -1)%Z then [missingName] else [])
  ++ (if (postalIndex =? -1)%Z then [missingPostal] else [])
  ++ (if (birthdayIndex =? -1)%Z then [missingBirthday] else []).

Definition missingColumnsError (missing headers : list jsstring) : jsstring :=
  lit "CSV is missing required columns: " ++ join (lit ", ") missing
  ++ lit ". Found columns: " ++ join (lit ", ") headers.

Definition noValidRows (errors : list jsstring) : jsstring :=
  lit "No valid data rows found in CSV. "
  ++ (if (Z.of_nat (length errors) >? 0)%Z
      then lit "Errors: " ++ join (lit "; ") (firstn 3 errors)
      else []).

Definition parseCSV (csvContent : jsstring) : outcome (list CSVRow) :=
  if (strlen csvContent >? maxFileSize VALIDATION)%Z then Throw tooLarge
  else
    let lines := linesOf csvContent in
    if (Z.of_nat (length lines) <? 2)%Z then Throw needsDataRow
    else if (Z.of_nat (length lines) - 1 >? maxRows VALIDATION)%Z
    then Throw tooManyRows
    else
      let headerLine := hd [] lines in
      let headers := headersOf headerLine in
      let nameIndex := findIndex isNameHeader headers in
      let postalIndex := findIndex isPostalHeader headers in
      let birthdayIndex := findIndex isBirthdayHeader headers in
      if (nameIndex =? -1)%Z || (postalIndex =? -1)%Z
         || (birthdayIndex =? -1)%Z
      then Throw (missingColumnsError
                    (missingColumns nameIndex postalIndex birthdayIndex)
                    headers)
      else
        let '(rows, errors) :=
          rowLoop nameIndex postalIndex birthdayIndex 1 (tl lines) in
        if (Z.of_nat (length rows) =? 0)%Z then Throw (noValidRows errors)
        else Return rows.

End Strict.

(** ** The request handler: platform, database and effects *)

(** [s.replace(pat, "")] for a non-empty string pattern: the first
    occurrence goes. *)
Fixpoint removeFirst (pat s : jsstring) : jsstring :=
  if startsWith pat s then skipn (length pat) s
  else match s with
       | [] => []
       | c :: r => c :: removeFirst pat r
       end.

Inductive app_role : Type := admin | user.

Definition isAdmin (r : app_role) : bool :=
  match r with admin => true | user => false end.

(** A record handed to [insert] on [imported_users]. *)
Record ImportedUser : Type := {
  imported_by : jsstring;
  iu_full_name : option jsstring;
  iu_postal_code : option jsstring;
  iu_birthday : option jsstring;
  iu_generated_email : jsstring;
  iu_generated_password : jsstring
}.

Record Database : Type := {
  user_roles : list (jsstring * app_role);
  imported_users : list ImportedUser
}.

(** What the hosted services answer during one request. *)
Record Platform : Type := {
  (** [supabase.auth.getUser(token)]: the user's id; [None] stands for an
      auth error or no user. *)
  authUser : jsstring -> option jsstring;
  (** the error of the [user_roles] query, if it fails *)
  roleQueryError : option jsstring;
  (** the error of the insert, if it fails *)
  insertError : list ImportedUser -> option jsstring;
  (** the random source behind [crypto.getRandomValues] *)
  entropy : nat -> N
}.

Inductive event : Type :=
| AuthLookup (token : jsstring)
| RoleQuery (user_id : jsstring)
| ReadBody
| ParseCSV (csvContent : jsstring)
| Insert (records : list ImportedUser).

Record World : Type := {
  db : Database;
  drawn : nat;           (* random bytes consumed so far *)
  trace : list event     (* what the handler has done, oldest first *)
}.

Record Request : Type := {
  method : jsstring;
  authorization : option jsstring;
  (** [await req.json()] and its [csvContent] field: [Throw] when the body
      is not JSON, [None] when the field is absent. *)
  json : outcome (option jsstring)
}.

Inductive ResponseBody : Type :=
| NoBody
| ErrorBody (message : jsstring)
| SuccessBody (users : list GeneratedUser) (count : Z).

Record Response : Type := { status : Z; body : ResponseBody }.

(** State and exceptions of the handler's [try] block. *)
Definition M (A : Type) : Type := World -> outcome A * World.

Definition ret {A} (a : A) : M A := fun w => (Return a, w).
Definition throw {A} (message : jsstring) : M A := fun w => (Throw message, w).
Definition bind {A B} (m : M A) (k : A -> M B) : M B :=
  fun w => match m w with
           | (Return a, w') => k a w'
           | (Throw e, w') => (Throw e, w')
           end.
Definition lift {A} (o : outcome A) : M A := fun w => (o, w).
Definition tell (e : event) : M unit :=
  fun w => (Return tt, {| db := db w; drawn := drawn w;
                          trace := trace w ++ [e] |}).

Notation "x <- m ;; k" := (bind m (fun x => k))
  (at level 61, m at next level, right associativity).
Notation "m ;;; k" := (bind m (fun _ => k))
  (at level 61, right associativity).

Fixpoint mapM {A B} (f : A -> M B) (l : list A) : M (list B) :=
  match l with
  | [] => ret []
  | x :: r => y <- f x ;; ys <- mapM f r ;; ret (y :: ys)
  end.

(** Calling a string method on a value that may be [undefined]. *)
Definition typeError (methodName : string) : jsstring :=
  lit "Cannot read properties of undefined (reading '"
  ++ lit methodName ++ lit "')".

Definition getUser (p : Platform) (token : jsstring) : M (option jsstring) :=
  tell (AuthLookup token) ;;; ret (authUser p token).

(** [from('user_roles').select('role').eq('user_id', id).eq('role',
    'admin').maybeSingle()] *)
Definition holdsAdmin (d : Database) (user_id : jsstring) : bool :=
  existsb (fun r => streq (fst r) user_id && isAdmin (snd r)) (user_roles d).

Definition adminRoleQuery (p : Platform) (user_id : jsstring)
  : M (outcome bool) :=
  tell (RoleQuery user_id) ;;;
  fun w => match roleQueryError p with
           | Some e => (Return (Throw e), w)
           | None => (Return (Return (holdsAdmin (db w) user_id)), w)
           end.

Definition readBody (req : Request) : M (option jsstring) :=
  tell ReadBody ;;; lift (json req).

Definition getRandomValues (p : Platform) (n : nat) : M (nat -> N) :=
  fun w => (Return (fun i => entropy p (drawn w + i)),
            {| db := db w; drawn := drawn w + n; trace := trace w |}).

Definition insertImported (p : Platform) (records : list ImportedUser)
  : M unit :=
  tell (Insert records) ;;;
  fun w => match insertError p records with
           | Some e => (Throw e, w)
           | None =>
               (Return tt,
                {| db := {| user_roles := user_roles (db w);
                            imported_users :=
                              imported_users (db w) ++ records |};
                   drawn := drawn w; trace := trace w |})
           end.

Definition toRecord (user_id : jsstring) (u : GeneratedUser) : ImportedUser :=
  {| imported_by := user_id;
     iu_full_name := full_name u;
     iu_postal_code := gu_postal_code u;
     iu_birthday := gu_birthday u;
     iu_generated_email := generated_email u;
     iu_generated_password := generated_password u |}.

Definition jsonResponse (b : ResponseBody) (code : Z) : Response :=
  {| status := code; body := b |}.

(** [new Response(null, { headers })]: the status defaults to 200. *)
Definition preflight : Response := {| status := 200; body := NoBody |}.

Definition forbidden : Response :=
  jsonResponse (ErrorBody (lit "Unauthorized: Admin role required")) 403.

(** The [catch] clause. *)
Definition catch (m : M Response) : World -> Response * World :=
  fun w => match m w with
           | (Return r, w') => (r, w')
           | (Throw e, w') => (jsonResponse (ErrorBody e) 400, w')
           end.

Section StrictHandler.

Context {CM : CaseMapping}.
Variable currentYear : Z.
Variable platform : Platform.

Definition credentials (row : CSVRow) : M GeneratedUser :=
  match name row with
  | None => throw (typeError "toLowerCase")
  | Some n =>
      let email := generateEmail n in
      bytes <- getRandomValues platform 16 ;;
      ret {| full_name := name row;
             gu_postal_code := postal_code row;
             gu_birthday := birthday row;
             generated_email := email;
             generated_password := generateSecurePassword 16 bytes |}
  end.

Definition serve (req : Request) : World -> Response * World :=
  if streq (method req) (lit "OPTIONS") then fun w => (preflight, w)
  else catch (
    match authorization req with
    | None | Some [] => throw (lit "No authorization header")
    | Some authHeader =>
        let token := removeFirst (lit "Bearer ") authHeader in
        u <- getUser platform token ;;
        match u with
        | None => throw (lit "Unauthorized")
        | Some user_id =>
            userRole <- adminRoleQuery platform user_id ;;
            match userRole with
            | Throw _ => throw (lit "Failed to verify user permissions")
            | Return false => ret forbidden
            | Return true =>
                csvContent <- readBody req ;;
                match csvContent with
                | None | Some [] => throw (lit "No CSV content provided")
                | Some csvContent =>
                    tell (ParseCSV csvContent) ;;;
                    csvRows <- lift (parseCSV currentYear csvContent) ;;
                    generatedUsers <- mapM credentials csvRows ;;
                    insertImported platform
                      (map (toRecord user_id) generatedUsers) ;;;
                    ret (jsonResponse
                           (SuccessBody generatedUsers
                              (Z.of_nat (length generatedUsers)))
                           200)
                end
            end
        end
    end).

End StrictHandler.

(** ** The permissive variant *)

Module Permissive.

(** [s.split(/\s+/)] *)
Fixpoint splitWsRuns (inRun : bool) (s : jsstring) : list jsstring :=
  match s with
  | [] => [[]]
  | c :: r =>
      if isWhiteSpace c
      then (if inRun then splitWsRuns true r else [] :: splitWsRuns true r)
      else match splitWsRuns false r with
           | [] => [[c]]
           | w :: ws => (c :: w) :: ws
           end
  end.

(** [s.slice(-4)] *)
Definition lastFour (s : jsstring) : jsstring := skipn (length s - 4) s.

(** [a || b] on strings: the empty string is falsy. *)
Definition orElse (a b : jsstring) : jsstring :=
  match a with [] => b | _ => a end.

Section Defs.

Context {CM : CaseMapping}.

Definition generateEmail (name : jsstring) : jsstring :=
  let cleanName := replaceWsRuns false (trim (toLowerCase name)) in
  cleanName ++ lit "@company.com".

Definition initial (part : jsstring) : jsstring :=
  toUpperCase (firstn 1 part).

Definition generatePassword (name postalCode birthday : jsstring)
  : jsstring :=
  let nameParts := splitWsRuns false (trim name) in
  let firstInitial := orElse (initial (hd [] nameParts)) (lit "A") in
  let lastInitial := orElse (initial (last nameParts [])) (lit "Z") in
  let postalDigits :=
    orElse (lastFour (filter isDigit postalCode)) (lit "0000") in
  let year := orElse (hd [] (split 45 birthday)) (lit "1990") in
  firstInitial ++ lastInitial ++ postalDigits ++ year ++ lit "!".

Definition needsColumns : jsstring :=
  lit "CSV must contain 'name', 'postal_code', and 'birthday' columns".

(** [v.trim().replace(/^["']|["']$/g, "")] *)
Definition cleanValue (v : jsstring) : jsstring := stripQuotes (trim v).

Definition rowsOf (nameIndex postalIndex birthdayIndex : Z)
  (dataLines : list jsstring) : list CSVRow :=
  flat_map
    (fun line =>
       let values := map cleanValue (split 44 line) in
       if (Z.of_nat (length values) >=? 3)%Z
       then [{| name := at_ values nameIndex;
                postal_code := at_ values postalIndex;
                birthday := at_ values birthdayIndex |}]
       else [])
    dataLines.

(** [csvContent.trim().split("\n")] *)
Definition linesOf (csvContent : jsstring) : list jsstring :=
  split 10 (trim csvContent).

(** [lines[0].split(",").map(h => h.trim().toLowerCase())] *)
Definition headersOf (headerLine : jsstring) : list jsstring :=
  map (fun h => toLowerCase (trim h)) (split 44 headerLine).

Definition nameIndexOf (csv : jsstring) : Z :=
  findIndex (fun h => includes h (lit "name"))
    (headersOf (hd [] (linesOf csv))).
Definition postalIndexOf (csv : jsstring) : Z :=
  findIndex (fun h => includes h (lit "postal"))
    (headersOf (hd [] (linesOf csv))).
Definition birthdayIndexOf (csv : jsstring) : Z :=
  findIndex (fun h => includes h (lit "birth"))
    (headersOf (hd [] (linesOf csv))).

Definition parseCSV (csvContent : jsstring) : outcome (list CSVRow) :=
  let lines := linesOf csvContent in
  if (Z.of_nat (length lines) <? 2)%Z then Throw needsDataRow
  else
    let nameIndex := nameIndexOf csvContent in
    let postalIndex := postalIndexOf csvContent in
    let birthdayIndex := birthdayIndexOf csvContent in
    if (nameIndex =? -1)%Z || (postalIndex =? -1)%Z
       || (birthdayIndex =? -1)%Z
    then Throw needsColumns
    else Return (rowsOf nameIndex postalIndex birthdayIndex (tl lines)).

Variable platform : Platform.

(** The object literal evaluates [generateEmail(row.name)] first, then
    [generatePassword], which calls [name.trim()], [postalCode.replace] and
    [birthday.split] in that order. *)
Definition credentials (row : CSVRow) : M GeneratedUser :=
  match name row, postal_code row, birthday row with
  | None, _, _ => throw (typeError "toLowerCase")
  | Some _, None, _ => throw (typeError "replace")
  | Some _, Some _, None => throw (typeError "split")
  | Some n, Some p, Some b =>
      ret {| full_name := name row;
             gu_postal_code := postal_code row;
             gu_birthday := birthday row;
             generated_email := generateEmail n;
             generated_password := generatePassword n p b |}
  end.

Definition serve (req : Request) : World -> Response * World :=
  if streq (method req) (lit "OPTIONS") then fun w => (preflight, w)
  else catch (
    match authorization req with
    | None | Some [] => throw (lit "No authorization header")
    | Some authHeader =>
        let token := removeFirst (lit "Bearer ") authHeader in
        u <- getUser platform token ;;
        match u with
        | None => throw (lit "Unauthorized")
        | Some user_id =>
            csvContent <- readBody req ;;
            match csvContent with
            | None | Some [] => throw (lit "No CSV content provided")
            | Some csvContent =>
                tell (ParseCSV csvContent) ;;;
                csvRows <- lift (parseCSV csvContent) ;;
                generatedUsers <- mapM credentials csvRows ;;
                insertImported platform
                  (map (toRecord user_id) generatedUsers) ;;;
                ret (jsonResponse
                       (SuccessBody generatedUsers
                          (Z.of_nat (length generatedUsers)))
                       200)
            end
        end
    end).

End Defs.

End Permissive.

(** ** Vocabulary of the statements *)

Section Vocabulary.

Context {CM : CaseMapping}.
Variable currentYear : Z.

(** What a field needs to pass its check, spelled out. *)
Definition nameOk (v : option jsstring) : Prop :=
  exists n, v = Some n /\ (1 <= strlen n <= 100)%Z
            /\ forallb nameClass n = true.

Definition postalOk (v : option jsstring) : Prop :=
  exists p, v = Some p /\ (1 <= strlen p <= 20)%Z
            /\ forallb postalClass p = true.

Definition birthdayOk (v : option jsstring) : Prop :=
  exists b y, v = Some b /\ birthdayPattern b = true
              /\ birthYear b = Some y /\ (1900 <= y <= currentYear)%Z.

Definition passesChecks (r : CSVRow) : Prop :=
  valid (validateName currentYear (name r)) = true
  /\ valid (validatePostalCode currentYear (postal_code r)) = true
  /\ valid (validateBirthday currentYear (birthday r)) = true.

(** The column positions [parseCSV] resolves from the header line. *)
Definition nameIndexOf (csv : jsstring) : Z :=
  findIndex isNameHeader (headersOf (hd [] (linesOf csv))).
Definition postalIndexOf (csv : jsstring) : Z :=
  findIndex isPostalHeader (headersOf (hd [] (linesOf csv))).
Definition birthdayIndexOf (csv : jsstring) : Z :=
  findIndex isBirthdayHeader (headersOf (hd [] (linesOf csv))).

(** The data lines: the non-blank lines after the header. *)
Definition dataLinesOf (csv : jsstring) : list jsstring := tl (linesOf csv).

(** The batch passes the size, line-count and row-count guards. *)
Definition withinLimits (csv : jsstring) : Prop :=
  (strlen csv <= 5 * 1024 * 1024)%Z
  /\ (1 <= Z.of_nat (length (dataLinesOf csv)) <= 1000)%Z.

(** The final test on [rows.length], after the row loop. *)
Definition finish (r : list CSVRow * list jsstring) : outcome (list CSVRow) :=
  if isEmpty (fst r) then Throw (noValidRows (snd r)) else Return (fst r).

(** The data lines with their row numbers [i], [i+1], ... *)
Fixpoint numbered (i : Z) (ls : list jsstring) : list (Z * jsstring) :=
  match ls with
  | [] => []
  | l :: rest => (i, l) :: numbered (i + 1) rest
  end.

(** The rows of the lines that pass, and the errors of those that do not. *)
Definition keptRows (nameIndex postalIndex birthdayIndex : Z)
  (ls : list (Z * jsstring)) : list CSVRow :=
  flat_map
    (fun il =>
       match checkRow currentYear nameIndex postalIndex birthdayIndex
               (fst il) (trim (snd il)) with
       | inr r => [r]
       | inl _ => []
       end) ls.

Definition loggedErrors (nameIndex postalIndex birthdayIndex : Z)
  (ls : list (Z * jsstring)) : list jsstring :=
  flat_map
    (fun il =>
       match checkRow currentYear nameIndex postalIndex birthdayIndex
               (fst il) (trim (snd il)) with
       | inl e => [e]
       | inr _ => []
       end) ls.

End Vocabulary.

(** ** The email address in the spec's words *)

(** The whitespace-separated words of a string. *)
Definition wordsOf (s : jsstring) : list jsstring :=
  filter (fun w => negb (isEmpty w)) (splitOn isWhiteSpace s).

Definition startsWithSpace (s : jsstring) : bool :=
  match s with c :: _ => isWhiteSpace c | [] => false end.

(** A string with no white space at either end. *)
Definition noEdgeSpace (s : jsstring) : Prop :=
  startsWithSpace s = false /\ trimEnd s = s.

(** Follows the spec: lowercase the name, strip non-letters, join the
    words with a period, append the fixed domain.  The letters are [a-z];
    the white space stays until the words are split. *)
Definition specEmail {CM : CaseMapping} (name : jsstring) : jsstring :=
  join (lit ".") (wordsOf (filter letterOrSpace (toLowerCase name)))
  ++ lit "@company.com".

(** The same without the stripping, for the permissive variant. *)
Definition specEmailUnstripped {CM : CaseMapping} (name : jsstring)
  : jsstring :=
  join (lit ".") (wordsOf (toLowerCase name)) ++ lit "@company.com".

(** The units of a cleaned name: a letter [a-z] or the period. *)
Definition dotOrLetter (c : N) : bool := isLowerAZ c || (c =? 46)%N.

(** ** Formula characters *)

(** The characters [sanitizeCSVValue] looks for: [=], [+], [-], [@]. *)
Definition isFormulaChar (c : N) : bool :=
  ((61 =? c) || (43 =? c) || (45 =? c) || (64 =? c))%N.

Definition beginsWithFormula (s : jsstring) : bool :=
  match s with c :: _ => isFormulaChar c | [] => false end.

(** ** Counting how a byte selects a character *)

(** The character [generateSecurePassword] picks for the byte [x]. *)
Definition pick (x : N) : option N :=
  at_ charset (Z.of_N x mod strlen charset).



(** ** Sample inputs *)

Definition newline : jsstring := [10%N].

Definition bobRow : CSVRow :=
  {| name := Some (lit "Bob Roy"); postal_code := Some (lit "12345");
     birthday := Some (lit "1990-01-02") |}.

(** A header, a valid row and a row born in 1800. *)
Definition sampleCsv : jsstring :=
  lit "name,postal,birth" ++ newline
  ++ lit "Bob Roy,12345,1990-01-02" ++ newline
  ++ lit "Al,999,1800-01-01".

(** A header without postal code and birthday columns, and one line. *)
Definition noColumnsCsv : jsstring :=
  lit "foo,name" ++ newline ++ lit "x,y".


(** A header, 1000 valid data lines and one line born in 1800. *)
Definition fullCsv : jsstring :=
  lit "name,postal,birth"
  ++ concat (repeat (newline ++ lit "Al,999,1990-01-01") 1000)
  ++ newline ++ lit "Al,999,1800-01-01".

(** A platform on which the token [t1] belongs to the user [u1] and
    nothing fails; [u1] has the role [user] only. *)
Definition samplePlatform : Platform :=
  {| authUser := fun token =>
       if streq token (lit "t1") then Some (lit "u1") else None;
     roleQueryError := None;
     insertError := fun _ => None;
     entropy := fun i => N.of_nat i |}.

Definition sampleWorld : World :=
  {| db := {| user_roles := [(lit "u1", user)]; imported_users := [] |};
     drawn := 0; trace := [] |}.

Definition sampleRequest : Request :=
  {| method := lit "POST";
     authorization := Some (lit "Bearer t1");
     json := Return (Some sampleCsv) |}.

(** The same request with the method [OPTIONS]. *)
Definition optionsRequest : Request :=
  {| method := lit "OPTIONS";
     authorization := Some (lit "Bearer t1");
     json := Return (Some sampleCsv) |}.

(** The same platform when the role query fails. *)
Definition failingPlatform : Platform :=
  {| authUser := authUser samplePlatform;
     roleQueryError := Some (lit "connection refused");
     insertError := insertError samplePlatform;
     entropy := entropy samplePlatform |}.

(** A header that names no column, and 1001 data lines. *)
Definition bigNoColumnsCsv : jsstring :=
  lit "foo" ++ concat (repeat (newline ++ lit "x") 1001).

(** A header with a birthday column only, and a line born in 1800. *)
Definition birthdayOnlyCsv : jsstring :=
  lit "dob" ++ newline ++ lit "1800-01-01".

(** ** Vocabulary of the further properties *)

(** The first unit of a field, when the field is a non-empty string. *)
Definition firstUnit (v : option jsstring) : option N :=
  match v with
  | Some (c :: _) => Some c
  | _ => None
  end.

(** [index] is the first position of [l] whose element passes [test]. *)
Definition firstMatch {A} (test : A -> bool) (l : list A) (index : Z)
  : Prop :=
  exists x,
    (0 <= index < Z.of_nat (length l))%Z
    /\ at_ l index = Some x /\ test x = true
    /\ forall j y, (0 <= j < index)%Z -> at_ l j = Some y -> test y = false.

(** The record of credentials that the strict handler makes for the row
    number [k] (from 0) with the name [n], when [start] random bytes were
    drawn before the first row. *)
Definition credentialsOf {CM : CaseMapping} (p : Platform) (start k : nat)
  (row : CSVRow) (n : jsstring) : GeneratedUser :=
  {| full_name := name row;
     gu_postal_code := postal_code row;
     gu_birthday := birthday row;
     generated_email := generateEmail n;
     generated_password :=
       generateSecurePassword 16 (fun i => entropy p (start + 16 * k + i)) |}.

(** The token the handlers take from the authorization header. *)
Definition tokenOf (authHeader : jsstring) : jsstring :=
  removeFirst (lit "Bearer ") authHeader.

(** The response carries the generated users. *)
Definition isSuccess (r : Response) : bool :=
  match body r with SuccessBody _ _ => true | _ => false end.

(** All three fields of a row are strings. *)
Definition allDefined (r : CSVRow) : Prop :=
  name r <> None /\ postal_code r <> None /\ birthday r <> None.

(** ** The export of the results table *)

(** [downloadCSV] of [GeneratedCredentialsTable.tsx], up to the text it
    puts in the Blob: the header names joined by commas, then one line per
    user with each cell between double quotes, the lines joined by line
    feeds.  A template literal prints an [undefined] cell as
    [undefined]. *)
Definition exportHeaders : list jsstring :=
  [lit "Full Name"; lit "Postal Code"; lit "Birthday";
   lit "Generated Email"; lit "Generated Password"].

Definition quoteCell (cell : jsstring) : jsstring :=
  [34%N] ++ cell ++ [34%N].

Definition exportCells (u : GeneratedUser) : list jsstring :=
  [unwrap (full_name u); unwrap (gu_postal_code u); unwrap (gu_birthday u);
   generated_email u; generated_password u].

Definition exportLine (u : GeneratedUser) : jsstring :=
  join (lit ",") (map quoteCell (exportCells u)).

Definition downloadCSV (users : list GeneratedUser) : jsstring :=
  join [10%N] (join (lit ",") exportHeaders :: map exportLine users).

(** The row a user was made from. *)
Definition rowOfUser (u : GeneratedUser) : CSVRow :=
  {| name := full_name u; postal_code := gu_postal_code u;
     birthday := gu_birthday u |}.

(** A unit other than the line feed and the comma. *)
Definition plainUnit (c : N) : bool := negb (10 =? c)%N && negb (44 =? c)%N.

(** A user whose export line the strict parser reads back: the fields pass
    the checks, no cell holds a line feed or a comma, and the name and the
    postal code do not begin with a formula character. *)
Definition exportable (currentYear : Z) (u : GeneratedUser) : Prop :=
  passesChecks currentYear (rowOfUser u)
  /\ Forall (fun cell => forallb plainUnit cell = true) (exportCells u)
  /\ beginsWithFormula (unwrap (full_name u)) = false
  /\ beginsWithFormula (unwrap (gu_postal_code u)) = false.

(** ** More sample inputs *)

(** The sample world when [u1] holds the admin role. *)
Definition adminWorld : World :=
  {| db := {| user_roles := [(lit "u1", admin)]; imported_users := [] |};
     drawn := 0; trace := [] |}.

(** The sample request without its authorization header. *)
Definition anonymousRequest : Request :=
  {| method := lit "POST"; authorization := None;
     json := Return (Some sampleCsv) |}.

(** A resolved header and one line of two fields. *)
Definition shortLinesCsv : jsstring :=
  lit "name,postal,birth" ++ newline ++ lit "x,y".

(** Columns further right than the fields of the line. *)
Definition undefinedFieldCsv : jsstring :=
  lit "id,x,name,postal,birth" ++ newline ++ lit "1,2,3".

Definition undefinedFieldRequest : Request :=
  {| method := lit "POST";
     authorization := Some (lit "Bearer t1");
     json := Return (Some undefinedFieldCsv) |}.

(** The user made from [bobRow]. *)
Definition bobUser : GeneratedUser :=
  {| full_name := Some (lit "Bob Roy");
     gu_postal_code := Some (lit "12345");
     gu_birthday := Some (lit "1990-01-02");
     generated_email := lit "bob.roy@company.com";
     generated_password := lit "ABCDEFGHabcd0123" |}.

(** * Facts about the built-ins *)

Ltac unbool :=
  repeat match goal with
  | H : _ && _ = true |- _ => apply andb_true_iff in H; destruct H
  | H : _ || _ = false |- _ => apply orb_false_iff in H; destruct H
  | H : negb _ = true |- _ => apply negb_true_iff in H
  | H : negb _ = false |- _ => apply negb_false_iff in H
  end.

(** Turns tests on code units into arithmetic for [lia]. *)
Ltac units :=
  unfold isDigit, isLowerAZ, isUpperAZ, isWhiteSpace, isQuote, isAscii in *;
  repeat rewrite ?andb_true_iff, ?orb_true_iff, ?andb_false_iff,
    ?orb_false_iff, ?N.leb_le, ?N.eqb_eq, ?N.leb_gt, ?N.eqb_neq,
    ?N.ltb_lt, ?N.ltb_ge in *;
  lia.

Lemma digit_not_space c : isDigit c = true -> isWhiteSpace c = false.
Proof. units. Qed.

Lemma digit_not_hyphen c : isDigit c = true -> (45 =? c)%N = false.
Proof. units. Qed.

Lemma digit_not_sign c :
  isDigit c = true -> (c =? 45)%N = false /\ (c =? 43)%N = false.
Proof. units. Qed.

Lemma lower_not_space c : isLowerAZ c = true -> isWhiteSpace c = false.
Proof. units. Qed.

Lemma strlen_nonneg s : (0 <= strlen s)%Z.
Proof. unfold strlen. lia. Qed.

Lemma strlen_zero s : (strlen s =? 0)%Z = isEmpty s.
Proof. destruct s; reflexivity. Qed.

Lemma digitsValue_bounds s acc :
  (0 <= acc)%Z -> (0 <= digitsValue acc s)%Z.
Proof.
  revert acc.
  induction s as [|c r IH]; intros acc Hacc; cbn [digitsValue]; [lia|].
  destruct (isDigit c); [apply IH|]; lia.
Qed.

Lemma splitOn_app p a c r :
  forallb (fun x => negb (p x)) a = true -> p c = true ->
  splitOn p (a ++ c :: r) = a :: splitOn p r.
Proof.
  intros Ha Hc. induction a as [|x a IH]; cbn [app splitOn].
  - now rewrite Hc.
  - cbn [forallb] in Ha. unbool. rewrite H, IH by assumption. reflexivity.
Qed.

(** The year field of a string in the [YYYY-MM-DD] shape is a number. *)
Lemma birthYear_pattern b :
  birthdayPattern b = true ->
  exists y, birthYear b = Some y /\ (0 <= y)%Z.
Proof.
  unfold birthdayPattern.
  do 10 (destruct b as [|? b]; try discriminate).
  destruct b; try discriminate. intro H. unbool.
  repeat match goal with
         | E : (?h =? 45)%N = true |- _ => apply N.eqb_eq in E; subst h
         end.
  unfold birthYear, split.
  match goal with
  | |- context [splitOn _ (?a :: ?b :: ?c :: ?d :: 45%N :: ?r)] =>
      change (a :: b :: c :: d :: 45%N :: r)
        with ([a; b; c; d] ++ 45%N :: r);
      rewrite splitOn_app;
      [ | cbn [forallb]; now rewrite !digit_not_hyphen | reflexivity ]
  end.
  cbn [hd]. unfold parseInt10. cbn [trimStart].
  repeat match goal with
         | D : isDigit ?c = true |- context [isWhiteSpace ?c] =>
             rewrite (digit_not_space _ D)
         end.
  cbv beta iota.
  match goal with
  | D : isDigit ?c = true |- context [(?c =? 45)%N] =>
      destruct (digit_not_sign _ D) as [-> ->]; cbn [parseDigits]; rewrite D
  end.
  eexists. split; [reflexivity|]. apply digitsValue_bounds. lia.
Qed.

(** * The validators *)

Lemma gtb_false a b : (a <= b)%Z -> (a >? b)%Z = false.
Proof. intros. rewrite Z.gtb_ltb. apply Z.ltb_ge. lia. Qed.

Lemma gtb_true a b : (a > b)%Z -> (a >? b)%Z = true.
Proof. intros. rewrite Z.gtb_ltb. apply Z.ltb_lt. lia. Qed.

Lemma ltb_false a b : (b <= a)%Z -> (a <? b)%Z = false.
Proof. intros. apply Z.ltb_ge. lia. Qed.

Lemma ltb_true a b : (a < b)%Z -> (a <? b)%Z = true.
Proof. intros. apply Z.ltb_lt. lia. Qed.

Lemma strlen_positive s : s <> [] -> (strlen s =? 0)%Z = false.
Proof. rewrite strlen_zero. destruct s; [congruence | reflexivity]. Qed.

Lemma pattern_nonempty (cls : N -> bool) s :
  s <> [] -> negb (isEmpty s) && forallb cls s = forallb cls s.
Proof. destruct s; [congruence | reflexivity]. Qed.

Lemma birthdayPattern_nonempty b : birthdayPattern b = true -> b <> [].
Proof. destruct b; [discriminate | congruence]. Qed.

Lemma birthYear_nonempty b y : birthYear b = Some y -> b <> [].
Proof. destruct b; [discriminate | congruence]. Qed.

Section Validators.

Variable currentYear : Z.

Lemma validateName_valid v :
  valid (validateName currentYear v) = true <-> nameOk v.
Proof.
  unfold validateName, nameOk. cbn [name_maxLength name_pattern VALIDATION].
  split.
  - destruct v as [n|]; [|discriminate].
    destruct (Z.eqb_spec (strlen n) 0); [discriminate|].
    rewrite Z.gtb_ltb. destruct (Z.ltb_spec 100 (strlen n)); [discriminate|].
    destruct (namePattern n) eqn:E; [|discriminate]. intros _.
    exists n. unfold namePattern in E. unbool.
    pose proof (strlen_nonneg n). repeat split; try lia. assumption.
  - intros (n & -> & Hlen & Hcls).
    assert (Hne : n <> []) by (intros ->; cbn in Hlen; lia).
    rewrite strlen_positive, gtb_false by (assumption || lia).
    unfold namePattern. rewrite pattern_nonempty, Hcls by assumption.
    reflexivity.
Qed.

Lemma validatePostalCode_valid v :
  valid (validatePostalCode currentYear v) = true <-> postalOk v.
Proof.
  unfold validatePostalCode, postalOk.
  cbn [postal_code_maxLength postal_code_pattern VALIDATION].
  split.
  - destruct v as [p|]; [|discriminate].
    destruct (Z.eqb_spec (strlen p) 0); [discriminate|].
    rewrite Z.gtb_ltb. destruct (Z.ltb_spec 20 (strlen p)); [discriminate|].
    destruct (postalPattern p) eqn:E; [|discriminate]. intros _.
    exists p. unfold postalPattern in E. unbool.
    pose proof (strlen_nonneg p). repeat split; try lia. assumption.
  - intros (p & -> & Hlen & Hcls).
    assert (Hne : p <> []) by (intros ->; cbn in Hlen; lia).
    rewrite strlen_positive, gtb_false by (assumption || lia).
    unfold postalPattern. rewrite pattern_nonempty, Hcls by assumption.
    reflexivity.
Qed.

Lemma validateBirthday_valid v :
  valid (validateBirthday currentYear v) = true <-> birthdayOk currentYear v.
Proof.
  unfold validateBirthday, birthdayOk.
  cbn [birthday_pattern birthday_minYear birthday_maxYear VALIDATION].
  split.
  - destruct v as [b|]; [|discriminate].
    destruct (strlen b =? 0)%Z; [discriminate|].
    destruct (birthdayPattern b) eqn:E; [|discriminate]. cbn [negb].
    destruct (birthYear_pattern b E) as (y & Hy & _). rewrite Hy.
    cbn [numLt numGt]. rewrite Z.gtb_ltb.
    destruct (Z.ltb_spec y 1900); [discriminate|].
    destruct (Z.ltb_spec currentYear y); [discriminate|]. intros _.
    exists b, y. repeat split; try assumption; lia.
  - intros (b & y & -> & Hpat & Hy & Hrange).
    rewrite (strlen_positive b (birthdayPattern_nonempty b Hpat)).
    rewrite Hpat, Hy. cbn [negb numLt numGt].
    rewrite ltb_false, gtb_false by lia. reflexivity.
Qed.

(** A birthday whose year, as the validator reads it, is out of range
    fails the check: with the format message when it has not the date
    shape, with the year message when it has. *)
Lemma validateBirthday_bad_year b y :
  birthYear b = Some y -> (y < 1900 \/ y > currentYear)%Z ->
  exists msg,
    validateBirthday currentYear (Some b) = invalid msg
    /\ (birthdayPattern b = true ->
        msg = lit "Birth year must be between " ++ showZ 1900
              ++ lit " and " ++ showZ currentYear).
Proof.
  intros Hy Hrange. unfold validateBirthday.
  cbn [birthday_pattern birthday_minYear birthday_maxYear VALIDATION].
  rewrite (strlen_positive b (birthYear_nonempty b y Hy)).
  destruct (birthdayPattern b); cbn [negb].
  - rewrite Hy. cbn [numLt numGt].
    assert (E : (y <? 1900)%Z || (y >? currentYear)%Z = true).
    { destruct Hrange; [rewrite ltb_true | rewrite gtb_true, orb_true_r];
        (reflexivity || lia). }
    rewrite E. eexists. split; reflexivity.
  - eexists. split; [reflexivity | discriminate].
Qed.

End Validators.

(** * Substrings and joins *)

Lemma startsWith_app m b : startsWith m (m ++ b) = true.
Proof.
  induction m as [|x m IH]; [reflexivity|].
  cbn [app startsWith]. now rewrite N.eqb_refl, IH.
Qed.

Lemma includes_infix a m b : includes (a ++ m ++ b) m = true.
Proof.
  induction a as [|x a IH].
  - cbn [app]. destruct (m ++ b) eqn:E; cbn [includes];
      rewrite <- E, startsWith_app; reflexivity.
  - cbn [app includes]. rewrite IH. apply orb_true_r.
Qed.

Lemma join_In sep parts m :
  In m parts -> exists a b, join sep parts = a ++ m ++ b.
Proof.
  induction parts as [|p rest IH]; [contradiction|].
  intros [->|Hin].
  - destruct rest as [|q rest].
    + exists [], []. cbn [join app]. now rewrite app_nil_r.
    + exists [], (sep ++ join sep (q :: rest)). reflexivity.
  - destruct (IH Hin) as (a & b & E).
    destruct rest as [|q rest]; [contradiction|].
    exists (p ++ sep ++ a), b.
    change (join sep (p :: q :: rest)) with (p ++ sep ++ join sep (q :: rest)).
    rewrite E. now rewrite <- !app_assoc.
Qed.

Lemma includes_join pre sep parts post m :
  In m parts -> includes (pre ++ join sep parts ++ post) m = true.
Proof.
  intros Hin. destruct (join_In sep parts m Hin) as (a & b & ->).
  replace (pre ++ (a ++ m ++ b) ++ post) with ((pre ++ a) ++ m ++ (b ++ post))
    by now rewrite <- !app_assoc.
  apply includes_infix.
Qed.

(** * The strict parser *)

Section StrictParser.

Context {CM : CaseMapping}.
Variable currentYear : Z.

Lemma length_tl {A} (l : list A) : length (tl l) = (length l - 1)%nat.
Proof. destruct l; cbn; lia. Qed.

Lemma parseCSV_withinLimits csv :
  withinLimits csv ->
  parseCSV currentYear csv =
  if (nameIndexOf csv =? -1)%Z || (postalIndexOf csv =? -1)%Z
     || (birthdayIndexOf csv =? -1)%Z
  then Throw (missingColumnsError
                (missingColumns (nameIndexOf csv) (postalIndexOf csv)
                   (birthdayIndexOf csv))
                (headersOf (hd [] (linesOf csv))))
  else finish (rowLoop currentYear (nameIndexOf csv) (postalIndexOf csv)
                 (birthdayIndexOf csv) 1 (dataLinesOf csv)).
Proof.
  intros [Hsize Hrows]. unfold dataLinesOf in Hrows.
  rewrite length_tl in Hrows. unfold parseCSV.
  cbn [maxFileSize maxRows VALIDATION].
  rewrite (gtb_false _ _ Hsize).
  replace (Z.of_nat (length (linesOf csv)) <? 2)%Z with false
    by (symmetry; apply Z.ltb_ge; lia).
  rewrite gtb_false by lia.
  fold (nameIndexOf csv) (postalIndexOf csv) (birthdayIndexOf csv).
  destruct (_ || _); [reflexivity|].
  fold (dataLinesOf csv).
  destruct (rowLoop _ _ _ _ _ _) as [rows errors]. unfold finish.
  cbn [fst snd]. destruct rows; reflexivity.
Qed.

(** ** Limits (C6, strict variant) *)



(** ** Accepted rows pass the checks (C1) *)

Lemma checkRow_inr ni pi bi i line r :
  checkRow currentYear ni pi bi i line = inr r -> passesChecks currentYear r.
Proof.
  unfold checkRow, passesChecks.
  destruct (valid (validateName _ _)) eqn:E1; [|discriminate].
  destruct (valid (validatePostalCode _ _)) eqn:E2; [|discriminate].
  destruct (valid (validateBirthday _ _)) eqn:E3; [|discriminate].
  cbn [negb]. intros [= <-]. cbn [name postal_code birthday]. auto.
Qed.

Lemma rowLoop_rows_pass ni pi bi dataLines : forall i,
  Forall (passesChecks currentYear)
    (fst (rowLoop currentYear ni pi bi i dataLines)).
Proof.
  induction dataLines as [|l rest IH]; intros i; cbn [rowLoop fst].
  - constructor.
  - destruct (isEmpty (trim l)); [apply IH|].
    destruct (checkRow _ _ _ _ _ _) as [e|row] eqn:E; cbn [fst].
    + apply IH.
    + constructor; [eapply checkRow_inr; eassumption | apply IH].
Qed.

Lemma parseCSV_Return csv rows :
  parseCSV currentYear csv = Return rows ->
  rows <> [] /\
  rows = fst (rowLoop currentYear (nameIndexOf csv) (postalIndexOf csv)
                (birthdayIndexOf csv) 1 (dataLinesOf csv)).
Proof.
  unfold parseCSV.
  destruct (_ >? _)%Z; [discriminate|].
  destruct (_ <? _)%Z; [discriminate|].
  destruct (_ >? _)%Z; [discriminate|].
  fold (nameIndexOf csv) (postalIndexOf csv) (birthdayIndexOf csv).
  destruct (_ || _); [discriminate|].
  fold (dataLinesOf csv).
  destruct (rowLoop _ _ _ _ _ _) as [rs errors].
  destruct rs; cbn [length Z.of_nat Z.eqb]; [discriminate|].
  intros [= <-]. split; [discriminate | reflexivity].
Qed.

End StrictParser.

(** * The row loop as a filter *)

Section RowLoop.

Context {CM : CaseMapping}.
Variable currentYear : Z.
Variables nameIndex postalIndex birthdayIndex : Z.

Lemma rowLoop_filter ls : forall i,
  Forall (fun l => trim l <> []) ls ->
  rowLoop currentYear nameIndex postalIndex birthdayIndex i ls
  = (keptRows currentYear nameIndex postalIndex birthdayIndex (numbered i ls),
     loggedErrors currentYear nameIndex postalIndex birthdayIndex
       (numbered i ls)).
Proof.
  induction ls as [|l rest IH]; intros i Hne; [reflexivity|].
  inversion Hne as [|? ? Hl Hrest]; subst.
  cbn [rowLoop numbered]. rewrite (IH (i + 1)%Z Hrest).
  unfold keptRows, loggedErrors. cbn [flat_map fst snd].
  destruct (trim l) eqn:E; [congruence|]. cbn [isEmpty].
  destruct (checkRow _ _ _ _ _ _); reflexivity.
Qed.

Lemma numbered_nth ls : forall i k l,
  nth_error ls k = Some l -> In ((i + Z.of_nat k)%Z, l) (numbered i ls).
Proof.
  induction ls as [|x rest IH]; intros i k l H.
  - destruct k; discriminate.
  - destruct k as [|k]; cbn [nth_error] in H.
    + injection H as ->. left. f_equal. lia.
    + right.
      replace (i + Z.of_nat (S k))%Z with ((i + 1) + Z.of_nat k)%Z by lia.
      now apply IH.
Qed.

Lemma loggedErrors_In ls i l e :
  In (i, l) ls ->
  checkRow currentYear nameIndex postalIndex birthdayIndex i (trim l) = inl e ->
  In e (loggedErrors currentYear nameIndex postalIndex birthdayIndex ls).
Proof.
  intros Hin Hc. unfold loggedErrors. apply in_flat_map.
  exists (i, l). split; [assumption|]. cbn [fst snd].
  rewrite Hc. now left.
Qed.

(** A line whose birthday field has a year out of range is turned into an
    error that carries its row number; the error is the year message when
    the name and the postal code pass and the birthday has the date shape. *)
Lemma checkRow_bad_year i line b y :
  at_ (fieldsOf line) birthdayIndex = Some b ->
  birthYear b = Some y -> (y < 1900 \/ y > currentYear)%Z ->
  exists msg,
    checkRow currentYear nameIndex postalIndex birthdayIndex i line
    = inl (lit "Row " ++ showZ i ++ lit ": " ++ msg)
    /\ (valid (validateName currentYear (at_ (fieldsOf line) nameIndex))
        = true ->
        valid (validatePostalCode currentYear
                 (at_ (fieldsOf line) postalIndex)) = true ->
        birthdayPattern b = true ->
        msg = lit "Birth year must be between " ++ showZ 1900
              ++ lit " and " ++ showZ currentYear).
Proof.
  intros Hb Hy Hrange. unfold checkRow. rewrite Hb.
  destruct (validateBirthday_bad_year currentYear b y Hy Hrange)
    as (msg & -> & Hmsg).
  destruct (valid (validateName _ _)) eqn:E1; cbn [negb].
  - destruct (valid (validatePostalCode _ _)) eqn:E2; cbn [negb valid invalid].
    + exists msg. split; [reflexivity|]. intros _ _. exact Hmsg.
    + eexists. split; [reflexivity|]. discriminate.
  - eexists. split; [reflexivity|]. discriminate.
Qed.

End RowLoop.

Lemma linesOf_nonblank csv : Forall (fun l => trim l <> []) (linesOf csv).
Proof.
  unfold linesOf. apply Forall_forall. intros l Hin.
  apply filter_In in Hin as [_ H]. intros E. rewrite E in H. discriminate.
Qed.

Lemma dataLinesOf_nonblank csv :
  Forall (fun l => trim l <> []) (dataLinesOf csv).
Proof.
  unfold dataLinesOf. pose proof (linesOf_nonblank csv) as H.
  destruct (linesOf csv); [constructor|]. now inversion H.
Qed.

(** * Properties of the parsers *)

Section ParserProperties.

Context {CM : CaseMapping}.
Variable currentYear : Z.

(** C1.  Every row of a list that the strict [parseCSV] returns passes
    [validateName], [validatePostalCode] and [validateBirthday]: the name
    has 1 to 100 units, all in the name class; the postal code has 1 to 20
    units, all in the postal class; the birthday has the [YYYY-MM-DD] shape
    and its year lies between 1900 and the current year. *)
Theorem parseCSV_rows_pass_checks csv rows :
  parseCSV currentYear csv = Return rows ->
  Forall (fun r => passesChecks currentYear r
                   /\ nameOk (name r) /\ postalOk (postal_code r)
                   /\ birthdayOk currentYear (birthday r)) rows.
Proof.
  intros H. apply parseCSV_Return in H as [_ ->].
  eapply Forall_impl; [|apply rowLoop_rows_pass].
  intros r Hr. split; [assumption|]. destruct Hr as (Hn & Hp & Hb).
  repeat split.
  - now apply validateName_valid in Hn.
  - now apply validatePostalCode_valid in Hp.
  - now apply validateBirthday_valid in Hb.
Qed.


(** C7, past the batch guards.  For a batch that the strict [parseCSV] takes
    to its row loop (within the limits, name and postal code columns
    resolved), a data line whose birthday has a year outside 1900..current
    year is skipped and an error with its row number is pushed (the year
    message, when the other checks pass and the birthday has the date
    shape); the rows returned are those of the lines that pass, in order;
    and the call throws exactly when no row is left. *)
Theorem bad_birth_year_row_is_skipped csv k line b y :
  withinLimits csv ->
  nameIndexOf csv <> (-1)%Z -> postalIndexOf csv <> (-1)%Z ->
  nth_error (dataLinesOf csv) k = Some line ->
  at_ (fieldsOf (trim line)) (birthdayIndexOf csv) = Some b ->
  birthYear b = Some y -> (y < 1900 \/ y > currentYear)%Z ->
  let ni := nameIndexOf csv in
  let pi := postalIndexOf csv in
  let bi := birthdayIndexOf csv in
  let rows := keptRows currentYear ni pi bi (numbered 1 (dataLinesOf csv)) in
  let errors :=
    loggedErrors currentYear ni pi bi (numbered 1 (dataLinesOf csv)) in
  (exists msg,
      checkRow currentYear ni pi bi (1 + Z.of_nat k) (trim line)
      = inl (lit "Row " ++ showZ (1 + Z.of_nat k) ++ lit ": " ++ msg)
      /\ In (lit "Row " ++ showZ (1 + Z.of_nat k) ++ lit ": " ++ msg) errors
      /\ (valid (validateName currentYear
                   (at_ (fieldsOf (trim line)) ni)) = true ->
          valid (validatePostalCode currentYear
                   (at_ (fieldsOf (trim line)) pi)) = true ->
          birthdayPattern b = true ->
          msg = lit "Birth year must be between " ++ showZ 1900
                ++ lit " and " ++ showZ currentYear))
  /\ rowLoop currentYear ni pi bi 1 (dataLinesOf csv) = (rows, errors)
  /\ Forall (passesChecks currentYear) rows
  /\ parseCSV currentYear csv
     = (if isEmpty rows then Throw (noValidRows errors) else Return rows).
Proof.
  intros Hlim Hni Hpi Hnth Hb Hy Hrange ni pi bi rows errors.
  assert (Hloop : rowLoop currentYear ni pi bi 1 (dataLinesOf csv)
                  = (rows, errors))
    by (apply rowLoop_filter, dataLinesOf_nonblank).
  split; [|split; [exact Hloop|split]].
  - destruct (checkRow_bad_year currentYear ni pi bi (1 + Z.of_nat k)
                (trim line) b y Hb Hy Hrange) as (msg & Hc & Hmsg).
    exists msg. split; [exact Hc|]. split; [|exact Hmsg].
    eapply loggedErrors_In; [|exact Hc]. now apply numbered_nth.
  - replace rows with (fst (rowLoop currentYear ni pi bi 1 (dataLinesOf csv)))
      by now rewrite Hloop.
    apply rowLoop_rows_pass.
  - rewrite (parseCSV_withinLimits currentYear csv Hlim).
    assert (Hbi : birthdayIndexOf csv <> (-1)%Z).
    { intros E. rewrite E in Hb. discriminate. }
    apply Z.eqb_neq in Hni, Hpi, Hbi. rewrite Hni, Hpi, Hbi. cbn [orb].
    fold ni pi bi. rewrite Hloop. reflexivity.
Qed.

(** C8, with the earlier guards.  When the header line leaves the name,
    postal code or birthday column unresolved, [parseCSV] rejects the batch,
    in both variants; and when the batch has passed the guards that come
    before header resolution, the message names every column that is
    missing: the strict variant lists the missing ones, the permissive
    variant always names all three. *)
Theorem unresolved_columns_are_named csv :
  (nameIndexOf csv = (-1)%Z \/ postalIndexOf csv = (-1)%Z
   \/ birthdayIndexOf csv = (-1)%Z ->
   exists msg,
     parseCSV currentYear csv = Throw msg
     /\ (withinLimits csv ->
         (nameIndexOf csv = (-1)%Z -> includes msg missingName = true)
         /\ (postalIndexOf csv = (-1)%Z -> includes msg missingPostal = true)
         /\ (birthdayIndexOf csv = (-1)%Z ->
             includes msg missingBirthday = true)))
  /\
  (Permissive.nameIndexOf csv = (-1)%Z \/ Permissive.postalIndexOf csv = (-1)%Z
   \/ Permissive.birthdayIndexOf csv = (-1)%Z ->
   exists msg,
     Permissive.parseCSV csv = Throw msg
     /\ ((2 <= Z.of_nat (length (Permissive.linesOf csv)))%Z ->
         includes msg (lit "'name'") = true
         /\ includes msg (lit "'postal_code'") = true
         /\ includes msg (lit "'birthday'") = true)).
Proof.
  split; intros Hmiss.
  - assert (E : (nameIndexOf csv =? -1)%Z || (postalIndexOf csv =? -1)%Z
                || (birthdayIndexOf csv =? -1)%Z = true).
    { rewrite !orb_true_iff, !Z.eqb_eq. tauto. }
    unfold parseCSV.
    fold (nameIndexOf csv) (postalIndexOf csv) (birthdayIndexOf csv).
    rewrite E. cbn [maxFileSize maxRows VALIDATION].
    destruct (strlen csv >? 5 * 1024 * 1024)%Z eqn:Esize.
    { eexists. split; [reflexivity|]. intros [Hsize _].
      rewrite gtb_false in Esize by exact Hsize. discriminate. }
    destruct (Z.of_nat (length (linesOf csv)) <? 2)%Z eqn:Elines.
    { eexists. split; [reflexivity|]. intros [_ Hrows].
      unfold dataLinesOf in Hrows. rewrite length_tl in Hrows.
      rewrite ltb_false in Elines by lia. discriminate. }
    destruct (Z.of_nat (length (linesOf csv)) - 1 >? 1000)%Z eqn:Erows.
    { eexists. split; [reflexivity|]. intros [_ Hrows].
      unfold dataLinesOf in Hrows. rewrite length_tl in Hrows.
      rewrite gtb_false in Erows by lia. discriminate. }
    eexists. split; [reflexivity|]. intros _.
    unfold missingColumnsError, missingColumns.
    repeat split; intros ->; cbn [Z.eqb Pos.eqb];
      apply includes_join; rewrite !in_app_iff; cbn [In]; tauto.
  - assert (E : (Permissive.nameIndexOf csv =? -1)%Z
                || (Permissive.postalIndexOf csv =? -1)%Z
                || (Permissive.birthdayIndexOf csv =? -1)%Z = true).
    { rewrite !orb_true_iff, !Z.eqb_eq. tauto. }
    unfold Permissive.parseCSV. rewrite E.
    destruct (_ <? _)%Z eqn:Elines.
    + eexists. split; [reflexivity|]. intros Hlines.
      rewrite ltb_false in Elines by lia. discriminate.
    + eexists. split; [reflexivity|]. intros _.
      repeat split; vm_compute; reflexivity.
Qed.

End ParserProperties.

(** * Trimming, words and white-space runs *)

Lemma trimStart_prefix s :
  exists pre, s = pre ++ trimStart s /\ forallb isWhiteSpace pre = true.
Proof.
  induction s as [|c r (pre & E & Hpre)].
  - exists []. split; reflexivity.
  - cbn [trimStart]. destruct (isWhiteSpace c) eqn:Hc.
    + exists (c :: pre). cbn [app forallb]. rewrite Hc, Hpre.
      split; [now f_equal | reflexivity].
    + exists []. split; reflexivity.
Qed.

Lemma trimEnd_suffix s :
  exists post, s = trimEnd s ++ post /\ forallb isWhiteSpace post = true.
Proof.
  induction s as [|c r (post & E & Hpost)].
  - exists []. split; reflexivity.
  - cbn [trimEnd]. destruct (trimEnd r) as [|d r'] eqn:Er.
    + cbn [app] in E. subst r. destruct (isWhiteSpace c) eqn:Hc.
      * exists (c :: post). cbn [app forallb]. now rewrite Hc, Hpost.
      * exists post. split; [reflexivity | assumption].
    + exists post. split; [|assumption]. cbn [app] in *. now f_equal.
Qed.

Lemma trimStart_head s : startsWithSpace (trimStart s) = false.
Proof.
  induction s as [|c r IH]; [reflexivity|]. cbn [trimStart].
  destruct (isWhiteSpace c) eqn:Hc; [assumption | exact Hc].
Qed.

Lemma trimEnd_head s :
  startsWithSpace s = false -> startsWithSpace (trimEnd s) = false.
Proof.
  destruct s as [|c r]; [reflexivity|]. cbn [startsWithSpace trimEnd].
  intros Hc. rewrite Hc. destruct (trimEnd r); exact Hc.
Qed.

Lemma trimEnd_idem s : trimEnd (trimEnd s) = trimEnd s.
Proof.
  induction s as [|c r IH]; [reflexivity|]. cbn [trimEnd].
  destruct (trimEnd r) as [|d r'] eqn:Er.
  - destruct (isWhiteSpace c) eqn:Hc; [reflexivity|].
    cbn [trimEnd]. now rewrite Hc.
  - change (trimEnd (c :: d :: r')) with
      (match trimEnd (d :: r') with
       | [] => if isWhiteSpace c then [] else [c]
       | r'' => c :: r''
       end).
    now rewrite IH.
Qed.

Lemma trim_noEdgeSpace s : noEdgeSpace (trim s).
Proof.
  split.
  - apply trimEnd_head, trimStart_head.
  - apply trimEnd_idem.
Qed.

Lemma trim_fixed s : trim s = s -> noEdgeSpace s.
Proof. intros E. rewrite <- E. apply trim_noEdgeSpace. Qed.

Lemma trimEnd_tail c r : trimEnd (c :: r) = c :: r -> trimEnd r = r.
Proof.
  cbn [trimEnd]. destruct (trimEnd r) as [|d r'] eqn:Er.
  - destruct (isWhiteSpace c); [discriminate|]. now intros [= <-].
  - now intros [= <-].
Qed.

Lemma trimEnd_space_tail c r :
  isWhiteSpace c = true -> trimEnd (c :: r) = c :: r -> r <> [].
Proof.
  intros Hc E ->. cbn [trimEnd] in E. rewrite Hc in E. discriminate.
Qed.

Lemma trim_no_space s :
  forallb (fun c => negb (isWhiteSpace c)) s = true -> trim s = s.
Proof.
  intros H. unfold trim.
  assert (Hs : trimStart s = s).
  { destruct s as [|c r]; [reflexivity|]. cbn [forallb] in H. unbool.
    cbn [trimStart]. now rewrite H. }
  rewrite Hs. clear Hs. induction s as [|c r IH]; [reflexivity|].
  cbn [forallb] in H. unbool. cbn [trimEnd]. rewrite (IH H0).
  destruct r; [now rewrite H | reflexivity].
Qed.

(** ** Words *)

Lemma splitOn_cons p s : exists w ws, splitOn p s = w :: ws.
Proof.
  destruct s as [|c r]; cbn [splitOn]; [now eexists; eexists|].
  destruct (p c); [now eexists; eexists|].
  destruct (splitOn p r); now eexists; eexists.
Qed.

Lemma wordsOf_space c s : isWhiteSpace c = true -> wordsOf (c :: s) = wordsOf s.
Proof. intros Hc. unfold wordsOf. cbn [splitOn]. now rewrite Hc. Qed.

Lemma wordsOf_spaces_l pre s :
  forallb isWhiteSpace pre = true -> wordsOf (pre ++ s) = wordsOf s.
Proof.
  induction pre as [|c pre IH]; [reflexivity|]. cbn [forallb app].
  intros H. unbool. rewrite wordsOf_space by assumption. now apply IH.
Qed.

Lemma splitOn_snoc p s c :
  p c = true -> splitOn p (s ++ [c]) = splitOn p s ++ [[]].
Proof.
  intros Hc. induction s as [|d s IH]; cbn [app splitOn].
  - now rewrite Hc.
  - rewrite IH. destruct (p d); [reflexivity|].
    destruct (splitOn_cons p s) as (w & ws & ->). reflexivity.
Qed.

Lemma wordsOf_spaces_r post : forall s,
  forallb isWhiteSpace post = true -> wordsOf (s ++ post) = wordsOf s.
Proof.
  induction post as [|c post IH]; intros s H.
  - now rewrite app_nil_r.
  - cbn [forallb] in H. unbool.
    replace (s ++ c :: post) with ((s ++ [c]) ++ post)
      by now rewrite <- app_assoc.
    rewrite IH by assumption. unfold wordsOf.
    rewrite splitOn_snoc by assumption. rewrite filter_app.
    cbn [filter isEmpty negb]. now rewrite app_nil_r.
Qed.

Lemma wordsOf_trim s : wordsOf (trim s) = wordsOf s.
Proof.
  unfold trim.
  destruct (trimStart_prefix s) as (pre & E1 & Hpre).
  destruct (trimEnd_suffix (trimStart s)) as (post & E2 & Hpost).
  rewrite E1 at 2. rewrite E2 at 2.
  now rewrite wordsOf_spaces_l, wordsOf_spaces_r.
Qed.

Lemma filter_spaces (keep : N -> bool) s :
  (forall c, isWhiteSpace c = true -> keep c = true) ->
  forallb isWhiteSpace s = true -> filter keep s = s.
Proof.
  intros Hk. induction s as [|c r IH]; [reflexivity|]. cbn [forallb filter].
  intros H. unbool. rewrite (Hk c) by assumption. now rewrite IH.
Qed.

Lemma wordsOf_filter_trim s :
  wordsOf (filter letterOrSpace (trim s)) = wordsOf (filter letterOrSpace s).
Proof.
  unfold trim.
  destruct (trimStart_prefix s) as (pre & E1 & Hpre).
  destruct (trimEnd_suffix (trimStart s)) as (post & E2 & Hpost).
  assert (Hk : forall c, isWhiteSpace c = true -> letterOrSpace c = true)
    by (intros c Hc; unfold letterOrSpace; rewrite Hc; apply orb_true_r).
  rewrite E1 at 2. rewrite E2 at 2. rewrite !filter_app.
  rewrite (filter_spaces letterOrSpace pre Hk Hpre).
  rewrite (filter_spaces letterOrSpace post Hk Hpost).
  now rewrite wordsOf_spaces_l, wordsOf_spaces_r.
Qed.

(** ** Replacing white-space runs joins the words *)

Lemma join_cons sep p rest :
  join sep (p :: rest)
  = p ++ (if isEmpty rest then [] else sep ++ join sep rest).
Proof.
  destruct rest; cbn [join isEmpty]; [now rewrite app_nil_r | reflexivity].
Qed.

Lemma wordsOf_nonempty s : trimEnd s = s -> s <> [] -> wordsOf s <> [].
Proof.
  induction s as [|c r IH]; [congruence|]. intros E _.
  destruct (isWhiteSpace c) eqn:Hc.
  - rewrite wordsOf_space by assumption.
    apply IH; [eapply trimEnd_tail | eapply trimEnd_space_tail]; eassumption.
  - unfold wordsOf. cbn [splitOn]. rewrite Hc.
    destruct (splitOn_cons isWhiteSpace r) as (w & ws & ->).
    cbn [filter isEmpty negb]. discriminate.
Qed.

Lemma wordsOf_letter c r :
  isWhiteSpace c = false ->
  join (lit ".") (wordsOf (c :: r))
  = c :: (if startsWithSpace r && negb (isEmpty (wordsOf r))
          then lit "." else [])
         ++ join (lit ".") (wordsOf r).
Proof.
  intros Hc. unfold wordsOf. cbn [splitOn]. rewrite Hc.
  destruct r as [|d r]; [reflexivity|].
  cbn [startsWithSpace splitOn]. destruct (isWhiteSpace d) eqn:Hd.
  - cbn [filter isEmpty negb andb]. rewrite join_cons. cbn [app].
    match goal with
    | |- context [filter ?f (splitOn isWhiteSpace r)] =>
        destruct (filter f (splitOn isWhiteSpace r)); reflexivity
    end.
  - destruct (splitOn_cons isWhiteSpace r) as (w & ws & ->).
    cbn [filter isEmpty negb andb app]. now rewrite !join_cons.
Qed.

Lemma replaceWsRuns_words s :
  trimEnd s = s ->
  replaceWsRuns true s = join (lit ".") (wordsOf s)
  /\ replaceWsRuns false s
     = (if startsWithSpace s then lit "." else [])
       ++ join (lit ".") (wordsOf s).
Proof.
  induction s as [|c r IH]; intros E; [split; reflexivity|].
  destruct (IH (trimEnd_tail c r E)) as [IHt IHf].
  cbn [replaceWsRuns startsWithSpace]. destruct (isWhiteSpace c) eqn:Hc.
  - rewrite wordsOf_space by assumption. rewrite IHt. split; reflexivity.
  - rewrite IHf, (wordsOf_letter c r Hc).
    destruct (startsWithSpace r) eqn:Hr; cbn [andb app].
    + assert (Hw : wordsOf r <> []).
      { apply wordsOf_nonempty; [eapply trimEnd_tail; eassumption|].
        intros ->. discriminate. }
      destruct (wordsOf r); [congruence|]. split; reflexivity.
    + split; reflexivity.
Qed.

Lemma replaceWsRuns_noEdgeSpace s :
  noEdgeSpace s -> replaceWsRuns false s = join (lit ".") (wordsOf s).
Proof.
  intros [Hhead Hend]. destruct (replaceWsRuns_words s Hend) as [_ ->].
  now rewrite Hhead.
Qed.

Lemma replaceWsRuns_no_space s : forall b,
  forallb (fun c => negb (isWhiteSpace c)) s = true -> replaceWsRuns b s = s.
Proof.
  induction s as [|c r IH]; intros b H; [reflexivity|].
  cbn [forallb] in H. unbool. cbn [replaceWsRuns]. rewrite H.
  now rewrite IH.
Qed.

(** * The generated email address *)

Lemma forallb_impl {A} (p q : A -> bool) l :
  (forall x, p x = true -> q x = true) ->
  forallb p l = true -> forallb q l = true.
Proof.
  intros Hpq. induction l as [|x l IH]; [reflexivity|]. cbn [forallb].
  intros H. unbool. now rewrite (Hpq x), IH.
Qed.

Lemma forallb_filter_same {A} (p : A -> bool) l :
  forallb p (filter p l) = true.
Proof.
  induction l as [|x l IH]; [reflexivity|]. cbn [filter].
  destruct (p x) eqn:E; [cbn [forallb]; now rewrite E|assumption].
Qed.

Lemma filter_agree {A} (p q : A -> bool) l :
  (forall x, In x l -> p x = q x) -> filter p l = filter q l.
Proof.
  induction l as [|x l IH]; [reflexivity|]. intros H. cbn [filter].
  rewrite (H x) by now left. rewrite IH; [reflexivity|].
  intros y Hy. apply H. now right.
Qed.

Lemma filter_fixed {A} (p : A -> bool) l :
  forallb p l = true -> filter p l = l.
Proof.
  induction l as [|x l IH]; [reflexivity|]. cbn [forallb filter].
  intros H. unbool. now rewrite H, IH.
Qed.

Lemma dotOrLetter_ascii c : dotOrLetter c = true -> isAscii c = true.
Proof. unfold dotOrLetter. units. Qed.

Lemma dotOrLetter_not_space c :
  dotOrLetter c = true -> negb (isWhiteSpace c) = true.
Proof. unfold dotOrLetter. rewrite negb_true_iff. units. Qed.

Lemma dotOrLetter_lower c : dotOrLetter c = true -> lowerAscii c = c.
Proof.
  intros H. unfold lowerAscii.
  replace (isUpperAZ c) with false; [reflexivity|].
  symmetry. revert H. unfold dotOrLetter. units.
Qed.

Lemma dotOrLetter_keep c :
  dotOrLetter c = true -> letterOrSpace c = isLowerAZ c.
Proof.
  intros H. apply dotOrLetter_not_space, negb_true_iff in H.
  unfold letterOrSpace. rewrite H. apply orb_false_r.
Qed.

Lemma letter_not_space c : isLowerAZ c = true -> negb (isWhiteSpace c) = true.
Proof. rewrite negb_true_iff. units. Qed.

Lemma replaceWsRuns_class s : forall b,
  forallb letterOrSpace s = true ->
  forallb dotOrLetter (replaceWsRuns b s) = true.
Proof.
  induction s as [|c r IH]; intros b H; [reflexivity|].
  cbn [forallb] in H. unbool. cbn [replaceWsRuns].
  destruct (isWhiteSpace c) eqn:Hc.
  - rewrite forallb_app, IH by assumption. now destruct b.
  - cbn [forallb]. rewrite IH by assumption.
    unfold letterOrSpace in H. rewrite Hc, orb_false_r in H.
    unfold dotOrLetter. now rewrite H.
Qed.

Lemma map_lowerAscii_fixed s :
  forallb (fun c => (lowerAscii c =? c)%N) s = true -> map lowerAscii s = s.
Proof.
  induction s as [|c r IH]; [reflexivity|]. cbn [forallb map].
  intros H. unbool. apply N.eqb_eq in H. now rewrite H, IH.
Qed.

Section Email.

Context {CM : CaseMapping}.

(** The part of the address before the domain. *)
Lemma generateEmail_shape name :
  exists c, generateEmail name = c ++ lit "@company.com"
            /\ forallb dotOrLetter c = true.
Proof.
  eexists. split; [reflexivity|].
  apply replaceWsRuns_class, forallb_filter_same.
Qed.

(** Applying [generateEmail] to an address it made: the periods and the
    [@] are stripped and the domain is appended again. *)
Lemma generateEmail_of_address c :
  forallb dotOrLetter c = true ->
  generateEmail (c ++ lit "@company.com")
  = filter isLowerAZ c ++ lit "companycom@company.com".
Proof.
  intros Hc. set (domain := lit "@company.com").
  assert (Hd : forallb isAscii domain = true) by reflexivity.
  assert (Hlow : toLowerCase (c ++ domain) = c ++ domain).
  { rewrite toLowerCase_ascii.
    - apply map_lowerAscii_fixed. rewrite forallb_app. apply andb_true_iff.
      split; [|reflexivity].
      eapply forallb_impl; [|exact Hc]. intros x Hx.
      rewrite (dotOrLetter_lower x Hx). apply N.eqb_refl.
    - rewrite forallb_app, Hd, andb_true_r.
      eapply forallb_impl; [|exact Hc]. apply dotOrLetter_ascii. }
  assert (Hns : forallb (fun x => negb (isWhiteSpace x)) (c ++ domain) = true).
  { rewrite forallb_app. apply andb_true_iff. split; [|reflexivity].
    eapply forallb_impl; [|exact Hc]. apply dotOrLetter_not_space. }
  unfold generateEmail. rewrite Hlow, (trim_no_space _ Hns), filter_app.
  rewrite (filter_agree letterOrSpace isLowerAZ c).
  2:{ intros x Hx. apply dotOrLetter_keep.
      rewrite forallb_forall in Hc. now apply Hc. }
  change (filter letterOrSpace domain) with (lit "companycom").
  rewrite replaceWsRuns_no_space.
  - rewrite <- app_assoc. reflexivity.
  - rewrite forallb_app. apply andb_true_iff. split; [|reflexivity].
    eapply forallb_impl; [|apply forallb_filter_same].
    apply letter_not_space.
Qed.

End Email.

(** * Properties of the generated credentials *)

Section CredentialProperties.

Context {CM : CaseMapping}.

(** C4, with its side condition.  When stripping the non-letters leaves no
    white space at either end of the trimmed, lowercased name, the strict
    [generateEmail] gives the lowercased name with all units but the letters
    a-z stripped, its words joined by a period, followed by [@company.com].
    The permissive [generateEmail] strips nothing: it gives the words of the
    lowercased name joined by a period, followed by the domain. *)
Theorem generateEmail_joins_words name :
  trim (filter letterOrSpace (trim (toLowerCase name)))
  = filter letterOrSpace (trim (toLowerCase name)) ->
  generateEmail name = specEmail name
  /\ forall other,
       Permissive.generateEmail other = specEmailUnstripped other.
Proof.
  intros Hedges. split.
  - unfold generateEmail, specEmail.
    rewrite (replaceWsRuns_noEdgeSpace _ (trim_fixed _ Hedges)).
    now rewrite wordsOf_filter_trim.
  - intros other. unfold Permissive.generateEmail, specEmailUnstripped.
    rewrite (replaceWsRuns_noEdgeSpace _ (trim_noEdgeSpace _)).
    now rewrite wordsOf_trim.
Qed.

(** C5, without idempotence.  Email generation is deterministic, and it is
    not idempotent: applied to an address it made, [generateEmail] strips
    the periods and the [@] and appends the domain again, so the result
    always differs from the address. *)
Theorem generateEmail_deterministic_not_idempotent name :
  (forall other, other = name -> generateEmail other = generateEmail name)
  /\ (exists c,
         generateEmail name = c ++ lit "@company.com"
         /\ generateEmail (generateEmail name)
            = filter isLowerAZ c ++ lit "companycom@company.com")
  /\ generateEmail (generateEmail name) <> generateEmail name.
Proof.
  destruct (generateEmail_shape name) as (c & Hc & Hcls).
  pose proof (generateEmail_of_address c Hcls) as Htwice.
  split; [now intros other ->|]. split.
  - exists c. split; [assumption|]. now rewrite Hc.
  - rewrite Hc at 1. rewrite Htwice, Hc.
    change (lit "companycom@company.com")
      with (lit "companycom" ++ lit "@company.com").
    rewrite app_assoc. intros E. apply app_inv_tail in E.
    assert (Hl : filter isLowerAZ (filter isLowerAZ c ++ lit "companycom")
                 = filter isLowerAZ c) by now rewrite E.
    rewrite filter_app in Hl.
    rewrite (filter_fixed _ _ (forallb_filter_same isLowerAZ c)) in Hl.
    apply (f_equal (@length N)) in Hl. rewrite length_app in Hl.
    cbn in Hl. lia.
Qed.

End CredentialProperties.

Lemma pick_in_charset x : exists c, pick x = Some c /\ In c charset.
Proof.
  unfold pick, at_.
  assert (Hlen : strlen charset = 70%Z) by reflexivity. rewrite Hlen.
  pose proof (Z.mod_pos_bound (Z.of_N x) 70 ltac:(lia)) as Hm.
  replace (Z.of_N x mod 70 <? 0)%Z with false
    by (symmetry; apply Z.ltb_ge; lia).
  destruct (nth_error charset (Z.to_nat (Z.of_N x mod 70))) as [c|] eqn:E.
  - exists c. split; [reflexivity|]. eapply nth_error_In; eassumption.
  - apply nth_error_None in E.
    assert (length charset = 70%nat) by reflexivity. lia.
Qed.

Lemma password_of_bytes array :
  let password :=
    flat_map (fun x => match pick x with Some c => [c] | None => [] end)
      array in
  length password = length array /\ Forall (fun c => In c charset) password.
Proof.
  induction array as [|x l [IHlen IHin]]; cbn zeta; [split; constructor|].
  cbn [flat_map]. destruct (pick_in_charset x) as (c & -> & Hc).
  cbn [app length]. split; [now f_equal | now constructor].
Qed.


Lemma startsWith_formula s :
  startsWith (lit "=") s || startsWith (lit "+") s
  || startsWith (lit "-") s || startsWith (lit "@") s
  = beginsWithFormula s.
Proof.
  destruct s as [|c r]; [reflexivity|].
  change (lit "=") with [61%N]. change (lit "+") with [43%N].
  change (lit "-") with [45%N]. change (lit "@") with [64%N].
  cbn [startsWith beginsWithFormula]. unfold isFormulaChar.
  now rewrite !andb_true_r.
Qed.

(** C9.  [sanitizeCSVValue] removes one leading formula character only:
    its result begins with a formula character exactly when the trimmed,
    unquoted value begins with two of them, as [==1+1] and [--Bob] do. *)
Theorem sanitizeCSVValue_keeps_second_formula_character :
  (forall value,
      beginsWithFormula (sanitizeCSVValue value)
      = beginsWithFormula (stripQuotes (trim value))
        && beginsWithFormula (tl (stripQuotes (trim value))))
  /\ sanitizeCSVValue (lit "==1+1") = lit "=1+1"
  /\ startsWith (lit "=") (sanitizeCSVValue (lit "==1+1")) = true
  /\ sanitizeCSVValue (lit "--Bob") = lit "-Bob".
Proof.
  split; [|repeat split; reflexivity].
  intros value. unfold sanitizeCSVValue. rewrite startsWith_formula.
  destruct (beginsWithFormula (stripQuotes (trim value))) eqn:E.
  - reflexivity.
  - now rewrite E.
Qed.

(** A line of at least three fields is kept by the permissive parser even
    when a resolved column lies beyond its fields. *)
Lemma rowsOf_short_line nameIndex postalIndex birthdayIndex line :
  (3 <= Z.of_nat (length (split 44 line)) <= birthdayIndex)%Z ->
  exists r,
    Permissive.rowsOf nameIndex postalIndex birthdayIndex [line] = [r]
    /\ birthday r = None.
Proof.
  intros [Hmin Hmax]. unfold Permissive.rowsOf. cbn [flat_map].
  rewrite length_map, app_nil_r.
  replace (Z.of_nat (length (split 44 line)) >=? 3)%Z with true
    by (symmetry; apply Z.geb_le; lia).
  eexists. split; [reflexivity|]. cbn [birthday]. unfold at_.
  rewrite ltb_false by lia. apply nth_error_None.
  rewrite length_map. lia.
Qed.

(** C10.  The permissive [parseCSV] accepts a line with three fields under
    a header whose columns sit further right: the row it returns has
    [undefined] for the postal code and the birthday. *)
Theorem permissive_row_with_undefined_fields :
  Permissive.parseCSV
    (lit "id,x,name,postal,birth" ++ [10%N] ++ lit "1,2,3")
  = Return [{| name := Some (lit "3"); postal_code := None;
               birthday := None |}].
Proof. vm_compute. reflexivity. Qed.

(** * The role check *)

(** C2, for the strict variant.  The strict handler answers 403 to every
    request other than the preflight whose caller is authenticated and for
    whom the role query succeeds and finds no admin role, whatever the body
    holds: it looks up the user and the role and does nothing else, so the
    body is not read, the CSV is not parsed and nothing is inserted. *)
Theorem non_admin_is_forbidden {CM : CaseMapping} currentYear platform
  req w authHeader user_id :
  streq (method req) (lit "OPTIONS") = false ->
  authorization req = Some authHeader -> authHeader <> [] ->
  authUser platform (removeFirst (lit "Bearer ") authHeader) = Some user_id ->
  roleQueryError platform = None ->
  holdsAdmin (db w) user_id = false ->
  serve currentYear platform req w
  = (forbidden,
     {| db := db w; drawn := drawn w;
        trace := trace w
                 ++ [AuthLookup (removeFirst (lit "Bearer ") authHeader);
                     RoleQuery user_id] |}).
Proof.
  intros Hmethod Hauth Hne Huser Hquery Hrole.
  unfold serve. rewrite Hmethod, Hauth.
  destruct authHeader as [|a h]; [congruence|].
  cbv [catch bind getUser adminRoleQuery tell ret db drawn trace].
  rewrite Huser, Hquery. destruct w as [d n t]. cbn [db] in Hrole.
  rewrite Hrole, <- app_assoc. reflexivity.
Qed.

(** * The properties at sample inputs *)

Lemma parseCSV_rows_pass_checks_witness :
  parseCSV 2025 sampleCsv = Return [bobRow]
  /\ Forall (fun r => passesChecks 2025 r
                      /\ nameOk (name r) /\ postalOk (postal_code r)
                      /\ birthdayOk 2025 (birthday r)) [bobRow].
Proof.
  assert (H : parseCSV 2025 sampleCsv = Return [bobRow])
    by (vm_compute; reflexivity).
  split; [exact H|]. exact (parseCSV_rows_pass_checks 2025 sampleCsv _ H).
Defined.



Lemma bad_birth_year_row_is_skipped_witness :
  withinLimits sampleCsv
  /\ In (lit "Row 2: Birth year must be between 1900 and 2025")
       (snd (rowLoop 2025 0 1 2 1 (dataLinesOf sampleCsv)))
  /\ parseCSV 2025 sampleCsv = Return [bobRow].
Proof.
  assert (Hlim : withinLimits sampleCsv)
    by (repeat split; vm_compute; intros Hc; discriminate Hc).
  assert (Hni : nameIndexOf sampleCsv <> (-1)%Z)
    by (vm_compute; intros Hc; discriminate Hc).
  assert (Hpi : postalIndexOf sampleCsv <> (-1)%Z)
    by (vm_compute; intros Hc; discriminate Hc).
  assert (Hy : (1800 < 1900 \/ 1800 > 2025)%Z) by lia.
  pose proof (bad_birth_year_row_is_skipped 2025 sampleCsv 1
                (lit "Al,999,1800-01-01") (lit "1800-01-01") 1800 Hlim
                Hni Hpi eq_refl eq_refl eq_refl Hy) as H.
  cbv zeta in H. destruct H as ((msg & Hc & Hin & Hmsg) & Hloop & _ & Hres).
  split; [exact Hlim|]. split.
  - change (rowLoop 2025 0 1 2 1 (dataLinesOf sampleCsv))
      with (rowLoop 2025 (nameIndexOf sampleCsv) (postalIndexOf sampleCsv)
              (birthdayIndexOf sampleCsv) 1 (dataLinesOf sampleCsv)).
    rewrite Hloop. cbn [snd].
    rewrite (Hmsg eq_refl eq_refl eq_refl) in Hin. exact Hin.
  - rewrite Hres. vm_compute. reflexivity.
Defined.

(** The row count is taken before validation: 1000 valid lines and one
    line born in 1800 are rejected as a whole, though 1000 rows would
    pass.  And a batch without name and postal code columns is rejected
    for its header, with no error for its row born in 1800. *)
Lemma full_batch_with_bad_year_row_is_rejected :
  nth_error (dataLinesOf fullCsv) 1000 = Some (lit "Al,999,1800-01-01")
  /\ at_ (fieldsOf (lit "Al,999,1800-01-01")) (birthdayIndexOf fullCsv)
     = Some (lit "1800-01-01")
  /\ birthYear (lit "1800-01-01") = Some 1800%Z
  /\ length (keptRows 2025 (nameIndexOf fullCsv) (postalIndexOf fullCsv)
               (birthdayIndexOf fullCsv) (numbered 1 (dataLinesOf fullCsv)))
     = 1000%nat
  /\ parseCSV 2025 fullCsv = Throw (tooManyRows 2025)
  /\ at_ (fieldsOf (lit "1800-01-01")) (birthdayIndexOf birthdayOnlyCsv)
     = Some (lit "1800-01-01")
  /\ parseCSV 2025 birthdayOnlyCsv
     = Throw (missingColumnsError [missingName; missingPostal] [lit "dob"]).
Proof. repeat split; vm_compute; reflexivity. Qed.

Lemma unresolved_columns_are_named_witness :
  postalIndexOf noColumnsCsv = (-1)%Z
  /\ Permissive.postalIndexOf noColumnsCsv = (-1)%Z
  /\ (exists msg, parseCSV 2025 noColumnsCsv = Throw msg
                  /\ includes msg missingPostal = true
                  /\ includes msg missingBirthday = true)
  /\ (exists msg, Permissive.parseCSV noColumnsCsv = Throw msg
                  /\ includes msg (lit "'postal_code'") = true).
Proof.
  assert (Hlim : withinLimits noColumnsCsv)
    by (repeat split; vm_compute; intros Hc; discriminate Hc).
  assert (Hlines : (2 <= Z.of_nat (length (Permissive.linesOf noColumnsCsv)))%Z)
    by (vm_compute; intros Hc; discriminate Hc).
  destruct (unresolved_columns_are_named 2025 noColumnsCsv) as [Hs Hp].
  split; [reflexivity|]. split; [reflexivity|]. split.
  - destruct (Hs (or_intror (or_introl eq_refl))) as (msg & E & Hnamed).
    destruct (Hnamed Hlim) as (_ & Hpostal & Hbirth).
    exists msg. repeat split; [exact E | now apply Hpostal | now apply Hbirth].
  - destruct (Hp (or_intror (or_introl eq_refl))) as (msg & E & Hnamed).
    destruct (Hnamed Hlines) as (_ & Hpostal & _).
    exists msg. split; [exact E | exact Hpostal].
Defined.

(** A batch of a header line only is rejected for having no data row,
    and a batch of 1001 data lines for its row count, whatever the header
    lacks: the message names no column. *)
Lemma header_only_batch_gets_other_message :
  nameIndexOf (lit "foo") = (-1)%Z
  /\ parseCSV 2025 (lit "foo") = Throw needsDataRow
  /\ Permissive.nameIndexOf (lit "foo") = (-1)%Z
  /\ Permissive.parseCSV (lit "foo") = Throw needsDataRow
  /\ includes needsDataRow missingName = false
  /\ includes needsDataRow (lit "'name'") = false
  /\ includes needsDataRow (lit "name") = false
  /\ nameIndexOf bigNoColumnsCsv = (-1)%Z
  /\ parseCSV 2025 bigNoColumnsCsv = Throw (tooManyRows 2025)
  /\ includes (tooManyRows 2025) (lit "name") = false.
Proof. repeat split; vm_compute; reflexivity. Qed.

Lemma generateEmail_joins_words_witness :
  generateEmail (lit "John  Smith") = lit "john.smith@company.com"
  /\ specEmail (lit "John  Smith") = lit "john.smith@company.com"
  /\ Permissive.generateEmail (lit "J0hn  Smith")
     = specEmailUnstripped (lit "J0hn  Smith").
Proof.
  assert (Hedges :
            trim (filter letterOrSpace (trim (toLowerCase (lit "John  Smith"))))
            = filter letterOrSpace (trim (toLowerCase (lit "John  Smith"))))
    by reflexivity.
  destruct (generateEmail_joins_words (lit "John  Smith") Hedges)
    as [Hstrict Hpermissive].
  split; [reflexivity|]. split; [now rewrite <- Hstrict|].
  apply Hpermissive.
Defined.

(** The strict [generateEmail] leaves a period at the end when stripping
    exposes white space there, and the permissive one keeps the digits. *)
Lemma generateEmail_differs_from_spec :
  generateEmail (lit "a -") = lit "a.@company.com"
  /\ specEmail (lit "a -") = lit "a@company.com"
  /\ Permissive.generateEmail (lit "j0e") = lit "j0e@company.com"
  /\ specEmail (lit "j0e") = lit "je@company.com".
Proof. repeat split; reflexivity. Qed.

(** Applied to its own output, [generateEmail] gives another address. *)
Lemma generateEmail_twice_differs :
  generateEmail (lit "a") = lit "a@company.com"
  /\ generateEmail (generateEmail (lit "a")) = lit "acompanycom@company.com"
  /\ generateEmail (generateEmail (lit "a")) <> generateEmail (lit "a").
Proof.
  split; [reflexivity|]. split; [reflexivity|].
  vm_compute. intros Hc. discriminate Hc.
Qed.

Lemma non_admin_is_forbidden_witness :
  holdsAdmin (db sampleWorld) (lit "u1") = false
  /\ serve 2025 samplePlatform sampleRequest sampleWorld
     = (forbidden,
        {| db := db sampleWorld; drawn := 0;
           trace := [AuthLookup (lit "t1"); RoleQuery (lit "u1")] |}).
Proof.
  split; [reflexivity|].
  assert (Hne : lit "Bearer t1" <> []) by discriminate.
  rewrite (non_admin_is_forbidden (CM := asciiCase) 2025 samplePlatform
             sampleRequest sampleWorld (lit "Bearer t1") (lit "u1")
             eq_refl eq_refl Hne eq_refl eq_refl eq_refl).
  reflexivity.
Defined.

(** The permissive handler has no role check: for the same caller, who
    holds no admin role, it parses the CSV, inserts the records and answers
    200.  The strict handler answers 200 to the preflight before it looks
    at the caller, and 400 when the role query fails. *)
Lemma permissive_serve_ignores_role :
  authUser samplePlatform (lit "t1") = Some (lit "u1")
  /\ holdsAdmin (db sampleWorld) (lit "u1") = false
  /\ status (fst (Permissive.serve samplePlatform sampleRequest sampleWorld))
     = 200%Z
  /\ length (imported_users
               (db (snd (Permissive.serve samplePlatform sampleRequest
                           sampleWorld)))) = 2%nat
  /\ In (ParseCSV sampleCsv)
       (trace (snd (Permissive.serve samplePlatform sampleRequest
                      sampleWorld)))
  /\ status (fst (serve 2025 samplePlatform optionsRequest sampleWorld))
     = 200%Z
  /\ fst (serve 2025 failingPlatform sampleRequest sampleWorld)
     = jsonResponse (ErrorBody (lit "Failed to verify user permissions")) 400.
Proof.
  repeat split; try reflexivity.
  vm_compute. right. right. left. reflexivity.
Qed.

Lemma generateEmail_deterministic_not_idempotent_witness :
  generateEmail (lit "John Smith") = lit "john.smith@company.com"
  /\ generateEmail (generateEmail (lit "John Smith"))
     <> generateEmail (lit "John Smith").
Proof.
  split; [reflexivity|].
  exact (proj2 (proj2 (generateEmail_deterministic_not_idempotent
                         (lit "John Smith")))).
Defined.

(** * More on the strict parser *)

Lemma rowLoop_lengths cy ni pi bi ls : forall i,
  Forall (fun l => trim l <> []) ls ->
  (length (fst (rowLoop cy ni pi bi i ls))
   + length (snd (rowLoop cy ni pi bi i ls)) = length ls)%nat.
Proof.
  induction ls as [|l rest IH]; intros i Hne; [reflexivity|].
  inversion Hne as [|? ? Hl Hrest]; subst. cbn [rowLoop].
  destruct (trim l) eqn:E; [congruence|]. cbn [isEmpty].
  specialize (IH (i + 1)%Z Hrest).
  destruct (checkRow _ _ _ _ _ _); cbn [fst snd length]; lia.
Qed.

(** What [parseCSV] has checked when it returns. *)
Lemma parseCSV_Return_limits {CM : CaseMapping} cy csv rows :
  parseCSV cy csv = Return rows -> withinLimits csv.
Proof.
  unfold parseCSV, withinLimits, dataLinesOf. rewrite length_tl.
  cbn [maxFileSize maxRows VALIDATION]. rewrite !Z.gtb_ltb.
  destruct (Z.ltb_spec (5 * 1024 * 1024) (strlen csv)); [discriminate|].
  destruct (Z.ltb_spec (Z.of_nat (length (linesOf csv))) 2); [discriminate|].
  destruct (Z.ltb_spec 1000 (Z.of_nat (length (linesOf csv)) - 1));
    [discriminate|].
  intros _. split; lia.
Qed.

Lemma parseCSV_Return_count {CM : CaseMapping} cy csv rows :
  parseCSV cy csv = Return rows ->
  (1 <= length rows <= 1000)%nat
  /\ (length rows <= length (dataLinesOf csv))%nat.
Proof.
  intros H. pose proof (parseCSV_Return_limits cy csv rows H) as [_ Hlim].
  apply parseCSV_Return in H as [Hne ->].
  pose proof (rowLoop_lengths cy (nameIndexOf csv) (postalIndexOf csv)
                (birthdayIndexOf csv) (dataLinesOf csv) 1
                (dataLinesOf_nonblank csv)) as Hlen.
  destruct (fst (rowLoop _ _ _ _ _ _)) as [|r rs] eqn:E; [congruence|].
  cbn [length] in *. lia.
Qed.

(** X1.  The list that the strict [parseCSV] returns is never empty and
    has at most 1000 rows, no more than the batch has data lines. *)
Theorem parseCSV_returns_1_to_1000_rows {CM : CaseMapping} cy csv rows :
  parseCSV cy csv = Return rows ->
  (1 <= length rows <= 1000)%nat
  /\ (length rows <= length (dataLinesOf csv))%nat.
Proof. apply parseCSV_Return_count. Qed.

Lemma numbered_bounds ls : forall s i l,
  In (i, l) (numbered s ls) ->
  (s <= i < s + Z.of_nat (length ls))%Z /\ In l ls.
Proof.
  induction ls as [|x rest IH]; intros s i l H; [contradiction|].
  cbn [numbered In length] in *. destruct H as [[= <- <-]|H].
  - split; [lia | now left].
  - apply IH in H as [Hi Hl]. split; [lia | now right].
Qed.

Lemma checkRow_inl cy ni pi bi i line e :
  checkRow cy ni pi bi i line = inl e ->
  exists msg, e = lit "Row " ++ showZ i ++ lit ": " ++ msg /\ msg <> [].
Proof.
  unfold checkRow, rowError.
  assert (Hn : forall v, valid (validateName cy v) = false ->
                 exists m, error (validateName cy v) = Some m /\ m <> []).
  { intros v. unfold validateName. destruct v as [n|];
      repeat match goal with
             | |- context [if ?b then _ else _] => destruct b
             end; cbn [valid error invalid ok]; intros Hv;
      try discriminate Hv; eexists; (split; [reflexivity|]);
      apply not_eq_sym, app_cons_not_nil || discriminate. }
  assert (Hp : forall v, valid (validatePostalCode cy v) = false ->
                 exists m, error (validatePostalCode cy v) = Some m
                           /\ m <> []).
  { intros v. unfold validatePostalCode. destruct v as [n|];
      repeat match goal with
             | |- context [if ?b then _ else _] => destruct b
             end; cbn [valid error invalid ok]; intros Hv;
      try discriminate Hv; eexists; (split; [reflexivity|]);
      apply not_eq_sym, app_cons_not_nil || discriminate. }
  assert (Hb : forall v, valid (validateBirthday cy v) = false ->
                 exists m, error (validateBirthday cy v) = Some m /\ m <> []).
  { intros v. unfold validateBirthday. destruct v as [n|];
      repeat match goal with
             | |- context [if ?b then _ else _] => destruct b
             end; cbn [valid error invalid ok]; intros Hv;
      try discriminate Hv; eexists; (split; [reflexivity|]);
      apply not_eq_sym, app_cons_not_nil || discriminate. }
  destruct (valid (validateName _ _)) eqn:E1; cbn [negb].
  - destruct (valid (validatePostalCode _ _)) eqn:E2; cbn [negb].
    + destruct (valid (validateBirthday _ _)) eqn:E3; cbn [negb];
        [discriminate|].
      intros [= <-]. destruct (Hb _ E3) as (m & -> & Hm). now exists m.
    + intros [= <-]. destruct (Hp _ E2) as (m & -> & Hm). now exists m.
  - intros [= <-]. destruct (Hn _ E1) as (m & -> & Hm). now exists m.
Qed.

(** X2.  The row loop accounts for every data line of a batch: each line
    gives one row or one error, and every error reads [Row i: message]
    with the line's row number [i] and a non-empty message. *)
Theorem rowLoop_accounts_for_every_line cy ni pi bi csv :
  let result := rowLoop cy ni pi bi 1 (dataLinesOf csv) in
  (length (fst result) + length (snd result)
   = length (dataLinesOf csv))%nat
  /\ forall e, In e (snd result) ->
       exists i msg,
         (1 <= i <= Z.of_nat (length (dataLinesOf csv)))%Z
         /\ e = lit "Row " ++ showZ i ++ lit ": " ++ msg /\ msg <> [].
Proof.
  cbv zeta. split.
  - apply rowLoop_lengths, dataLinesOf_nonblank.
  - intros e He.
    rewrite (rowLoop_filter cy ni pi bi (dataLinesOf csv) 1
               (dataLinesOf_nonblank csv)) in He.
    cbn [snd] in He. unfold loggedErrors in He.
    apply in_flat_map in He as ([i l] & Hin & He). cbn [fst snd] in He.
    destruct (checkRow cy ni pi bi i (trim l)) as [e'|r] eqn:E;
      [|contradiction].
    destruct He as [<-|[]].
    apply numbered_bounds in Hin as [Hi _].
    destruct (checkRow_inl _ _ _ _ _ _ _ E) as (msg & -> & Hmsg).
    exists i, msg. repeat split; (lia || assumption).
Qed.

(** ** A batch of one line *)

Lemma forallb_trim (P : N -> bool) s :
  forallb P s = true -> forallb P (trim s) = true.
Proof.
  intros H. unfold trim.
  destruct (trimStart_prefix s) as (pre & E1 & _).
  destruct (trimEnd_suffix (trimStart s)) as (post & E2 & _).
  rewrite E1, E2, !forallb_app in H. unbool. assumption.
Qed.

Lemma splitOn_none p s :
  forallb (fun c => negb (p c)) s = true -> splitOn p s = [s].
Proof.
  induction s as [|c r IH]; [reflexivity|]. cbn [forallb splitOn].
  intros H. unbool. now rewrite H, (IH H0).
Qed.

(** X3.  A batch without a line feed, the empty one and a lone header line
    among them, is rejected for having no data row (when it is within the
    size limit, which is checked first). *)
Theorem parseCSV_single_line {CM : CaseMapping} cy csv :
  (strlen csv <= 5 * 1024 * 1024)%Z ->
  forallb (fun c => negb (10 =? c)%N) csv = true ->
  parseCSV cy csv = Throw needsDataRow.
Proof.
  intros Hsize Hnl. unfold parseCSV. cbn [maxFileSize VALIDATION].
  rewrite (gtb_false _ _ Hsize).
  assert (Hlines : (length (linesOf csv) <= 1)%nat).
  { unfold linesOf, split.
    rewrite (splitOn_none (N.eqb 10) (trim csv) (forallb_trim _ csv Hnl)).
    cbn [filter]. destruct (_ >? _)%Z; cbn [length]; lia. }
  rewrite ltb_true by lia. reflexivity.
Qed.

(** ** Dates *)

Lemma birthYear_digits y1 y2 y3 y4 rest :
  isDigit y1 = true -> isDigit y2 = true -> isDigit y3 = true ->
  isDigit y4 = true ->
  birthYear (y1 :: y2 :: y3 :: y4 :: 45%N :: rest)
  = Some (digitsValue 0 [y1; y2; y3; y4]).
Proof.
  intros H1 H2 H3 H4. unfold birthYear, split.
  change (y1 :: y2 :: y3 :: y4 :: 45%N :: rest)
    with ([y1; y2; y3; y4] ++ 45%N :: rest).
  rewrite splitOn_app;
    [ | cbn [forallb]; now rewrite !digit_not_hyphen | reflexivity ].
  cbn [hd]. unfold parseInt10. cbn [trimStart].
  rewrite (digit_not_space _ H1).
  destruct (digit_not_sign _ H1) as [-> ->]. cbn [parseDigits].
  now rewrite H1.
Qed.

(** X4.  [validateBirthday] checks the shape and the year only: a string
    of the date shape whose year is in range is valid whatever its month
    and day digits are. *)
Theorem validateBirthday_ignores_month_and_day cy y1 y2 y3 y4 m1 m2 d1 d2 :
  forallb isDigit [y1; y2; y3; y4; m1; m2; d1; d2] = true ->
  (1900 <= digitsValue 0 [y1; y2; y3; y4] <= cy)%Z ->
  valid (validateBirthday cy
           (Some [y1; y2; y3; y4; 45; m1; m2; 45; d1; d2]%N)) = true.
Proof.
  intros Hd Hy. cbn [forallb] in Hd. unbool.
  apply validateBirthday_valid. eexists. eexists.
  split; [reflexivity|]. split; [|split; [|exact Hy]].
  - cbn [birthdayPattern].
    repeat match goal with E : isDigit _ = true |- _ => rewrite E; clear E end.
    reflexivity.
  - now apply birthYear_digits.
Qed.

(** ** What an accepted field begins with *)

Lemma nameClass_not_formula c :
  nameClass c = true -> c <> 61%N /\ c <> 43%N /\ c <> 64%N.
Proof. repeat split; intros ->; discriminate. Qed.

Lemma postalClass_not_formula c :
  postalClass c = true -> c <> 61%N /\ c <> 43%N /\ c <> 64%N.
Proof. repeat split; intros ->; discriminate. Qed.

(** X5.  In a row that the strict [parseCSV] returns, the name and the
    postal code begin with a unit other than [=], [+] and [@], and the
    birthday begins with a digit. *)
Theorem accepted_fields_first_unit {CM : CaseMapping} cy csv rows :
  parseCSV cy csv = Return rows ->
  Forall (fun r =>
            exists c1 c2 c3,
              firstUnit (name r) = Some c1
              /\ firstUnit (postal_code r) = Some c2
              /\ firstUnit (birthday r) = Some c3
              /\ (c1 <> 61 /\ c1 <> 43 /\ c1 <> 64)%N
              /\ (c2 <> 61 /\ c2 <> 43 /\ c2 <> 64)%N
              /\ isDigit c3 = true) rows.
Proof.
  intros H. apply parseCSV_Return in H as [_ ->].
  eapply Forall_impl; [|apply rowLoop_rows_pass].
  intros r (Hn & Hp & Hb).
  apply validateName_valid in Hn as (n & -> & Hlen & Hcls).
  apply validatePostalCode_valid in Hp as (p & -> & Hlenp & Hclsp).
  apply validateBirthday_valid in Hb as (b & y & -> & Hpat & _).
  destruct n as [|c1 n']; [cbn in Hlen; lia|].
  destruct p as [|c2 p']; [cbn in Hlenp; lia|].
  destruct b as [|c3 b']; [discriminate|].
  cbn [forallb] in Hcls, Hclsp. unbool.
  exists c1, c2, c3. cbn [firstUnit].
  repeat split; try assumption;
    try (now apply nameClass_not_formula);
    try (now apply postalClass_not_formula).
  unfold birthdayPattern in Hpat.
  do 9 (destruct b' as [|? b']; try discriminate).
  destruct b'; [|discriminate]. unbool. assumption.
Qed.

(** ** Header keywords *)

Lemma streq_eq a : forall b, streq a b = true -> a = b.
Proof.
  induction a as [|x a IH]; intros [|y b] H; try discriminate;
    [reflexivity|].
  cbn [streq] in H. unbool. apply N.eqb_eq in H. subst. f_equal. now apply IH.
Qed.

Lemma orb_absorb (a b : bool) : (b = true -> a = true) -> a || b = a.
Proof. destruct a, b; intros H; try reflexivity. now rewrite H. Qed.

(** X6.  The exact header names that the column tests list add nothing to
    their substring tests: a header is a name column exactly when it
    contains [name], a postal column when it contains [postal] or [zip],
    a birthday column when it contains [birth] or [dob]. *)
Theorem header_tests_are_substring_tests h :
  isNameHeader h = includes h (lit "name")
  /\ isPostalHeader h = includes h (lit "postal") || includes h (lit "zip")
  /\ isBirthdayHeader h = includes h (lit "birth") || includes h (lit "dob").
Proof.
  unfold isNameHeader, isPostalHeader, isBirthdayHeader. repeat split.
  - rewrite <- orb_assoc. apply orb_absorb. intros H.
    apply orb_true_iff in H as [H|H]; apply streq_eq in H; subst;
      reflexivity.
  - rewrite <- orb_assoc. apply orb_absorb. intros H.
    apply orb_true_iff in H as [H|H]; apply streq_eq in H; subst;
      reflexivity.
  - rewrite <- orb_assoc. apply orb_absorb. intros H.
    apply orb_true_iff in H as [H|H]; apply streq_eq in H; subst;
      reflexivity.
Qed.

(** ** The position [findIndex] returns *)

Lemma findIndexFrom_spec {A} (p : A -> bool) l : forall s,
  (findIndexFrom p s l = -1 /\ forallb (fun x => negb (p x)) l = true)%Z
  \/ exists k x,
       findIndexFrom p s l = (s + Z.of_nat k)%Z
       /\ nth_error l k = Some x /\ p x = true
       /\ forallb (fun x => negb (p x)) (firstn k l) = true.
Proof.
  induction l as [|y l IH]; intros s; [left; split; reflexivity|].
  cbn [findIndexFrom]. destruct (p y) eqn:E.
  - right. exists 0%nat, y. repeat split; [lia | assumption].
  - destruct (IH (s + 1)%Z) as [[-> Hall]|(k & x & -> & Hk & Hx & Hall)].
    + left. split; [reflexivity|]. cbn [forallb]. now rewrite E, Hall.
    + right. exists (S k), x. repeat split; try assumption; [lia|].
      cbn [firstn forallb]. now rewrite E, Hall.
Qed.

Lemma findIndex_firstMatch {A} (test : A -> bool) l :
  findIndex test l <> (-1)%Z -> firstMatch test l (findIndex test l).
Proof.
  intros Hres. unfold findIndex in *.
  destruct (findIndexFrom_spec test l 0)
    as [[Hnone _]|(k & x & Hk & Hnth & Hx & Hall)]; [congruence|].
  rewrite Hk. cbn [Z.add]. exists x.
  assert (Hlen : (k < length l)%nat) by (apply nth_error_Some; congruence).
  repeat split; try lia; try assumption.
  - unfold at_. rewrite ltb_false by lia. now rewrite Nat2Z.id.
  - intros j h' Hj Hat. unfold at_ in Hat. rewrite ltb_false in Hat by lia.
    rewrite forallb_forall in Hall.
    assert (Hin : In h' (firstn k l)).
    { rewrite <- (firstn_skipn k l) in Hat.
      rewrite nth_error_app1 in Hat by (rewrite length_firstn; lia).
      eapply nth_error_In; eassumption. }
    apply Hall in Hin. now apply negb_true_iff in Hin.
Qed.

(** X7.  A column position that the strict [parseCSV] resolves points at a
    header of the header line, that header passes the column's test, and
    no header before it does: the first matching column is taken. *)
Theorem resolved_column_is_first_match {CM : CaseMapping} csv :
  let headers := headersOf (hd [] (linesOf csv)) in
  (nameIndexOf csv <> (-1)%Z ->
   firstMatch isNameHeader headers (nameIndexOf csv))
  /\ (postalIndexOf csv <> (-1)%Z ->
      firstMatch isPostalHeader headers (postalIndexOf csv))
  /\ (birthdayIndexOf csv <> (-1)%Z ->
      firstMatch isBirthdayHeader headers (birthdayIndexOf csv)).
Proof. repeat split; apply findIndex_firstMatch. Qed.

(** * More on sanitising *)

Lemma trim_infix s : exists pre post, s = pre ++ trim s ++ post.
Proof.
  unfold trim.
  destruct (trimStart_prefix s) as (pre & E1 & _).
  destruct (trimEnd_suffix (trimStart s)) as (post & E2 & _).
  exists pre, post. now rewrite <- E2.
Qed.

Lemma stripTrailingQuote_prefix s :
  exists post, s = stripTrailingQuote s ++ post.
Proof.
  induction s as [|c r (post & E)]; [now exists []|].
  destruct r as [|d r].
  - cbn [stripTrailingQuote]. destruct (isQuote c); [now exists [c]|].
    now exists [].
  - exists post.
    change (stripTrailingQuote (c :: d :: r))
      with (c :: stripTrailingQuote (d :: r)).
    cbn [app]. now rewrite <- E.
Qed.

Lemma stripQuotes_infix s : exists pre post, s = pre ++ stripQuotes s ++ post.
Proof.
  unfold stripQuotes.
  destruct (stripTrailingQuote_prefix (stripLeadingQuote s)) as (post & E).
  destruct s as [|c r]; [now exists [], []|].
  cbn [stripLeadingQuote] in *. destruct (isQuote c).
  - exists [c], post. cbn [app]. now rewrite <- E.
  - exists [], post. exact E.
Qed.

(** X8.  [sanitizeCSVValue] only cuts at the two ends: its result is a
    contiguous piece of the value, so it is never longer and holds no unit
    that the value does not hold. *)
Theorem sanitizeCSVValue_is_a_piece value :
  exists pre post,
    value = pre ++ sanitizeCSVValue value ++ post
    /\ (length (sanitizeCSVValue value) <= length value)%nat.
Proof.
  assert (H : exists pre post, value = pre ++ sanitizeCSVValue value ++ post).
  { unfold sanitizeCSVValue.
    destruct (trim_infix value) as (p1 & q1 & E1).
    destruct (stripQuotes_infix (trim value)) as (p2 & q2 & E2).
    set (t := stripQuotes (trim value)) in *.
    destruct (_ || _).
    - destruct t as [|c r]; cbn [substring1 tl].
      + exists value, []. now rewrite app_nil_r.
      + exists (p1 ++ p2 ++ [c]), (q2 ++ q1). rewrite E1 at 1.
        rewrite E2. now rewrite <- !app_assoc.
    - exists (p1 ++ p2), (q2 ++ q1). rewrite E1 at 1. rewrite E2.
      now rewrite <- !app_assoc. }
  destruct H as (pre & post & E). exists pre, post. split; [exact E|].
  apply (f_equal (@length N)) in E. rewrite !length_app in E. lia.
Qed.

(** * More on the generated email address *)

Lemma replaceWsRuns_periods s : forall b,
  forallb letterOrSpace s = true ->
  includes (replaceWsRuns b s) (lit "..") = false
  /\ (b = true -> startsWith (lit ".") (replaceWsRuns b s) = false).
Proof.
  change (lit "..") with [46; 46]%N. change (lit ".") with [46%N].
  induction s as [|c r IH]; intros b H; [split; reflexivity|].
  cbn [forallb] in H. unbool. cbn [replaceWsRuns].
  destruct (IH true H0) as [IHt1 IHt2]. destruct (IH false H0) as [IHf _].
  destruct (isWhiteSpace c) eqn:Hc.
  - destruct b; cbn [app].
    + split; [assumption | auto].
    + split; [|discriminate].
      destruct (replaceWsRuns true r) as [|d r'] eqn:E; [reflexivity|].
      specialize (IHt2 eq_refl). cbn [startsWith] in IHt2.
      rewrite andb_true_r in IHt2.
      change (includes (46%N :: d :: r') [46%N; 46%N])
        with ((46 =? 46)%N && ((46 =? d)%N && true)
              || includes (d :: r') [46%N; 46%N]).
      rewrite IHt2, IHt1. reflexivity.
  - unfold letterOrSpace in H. rewrite Hc, orb_false_r in H.
    assert (Hdot : (46 =? c)%N = false) by (revert H; units).
    cbn [includes startsWith]. rewrite Hdot. cbn [andb orb].
    split; [exact IHf | reflexivity].
Qed.

Section MoreEmail.

Context {CM : CaseMapping}.

(** X9.  The address that the strict [generateEmail] makes is a local
    part followed by [@company.com]; the local part holds letters a-z and
    periods only, and never two periods in a row. *)
Theorem generateEmail_local_part name :
  exists c,
    generateEmail name = c ++ lit "@company.com"
    /\ forallb dotOrLetter c = true
    /\ includes c (lit "..") = false.
Proof.
  eexists. split; [reflexivity|]. split.
  - apply replaceWsRuns_class, forallb_filter_same.
  - apply replaceWsRuns_periods, forallb_filter_same.
Qed.

Lemma lower_upper c : lowerAscii (upperAscii c) = lowerAscii c.
Proof.
  unfold lowerAscii, upperAscii.
  destruct (isLowerAZ c) eqn:El.
  - assert (isUpperAZ (c - 32) = true) by (revert El; units).
    assert (isUpperAZ c = false) by (revert El; units).
    rewrite H, H0. revert El. unfold isLowerAZ.
    rewrite andb_true_iff, !N.leb_le. lia.
  - reflexivity.
Qed.

Lemma upperAscii_ascii s :
  forallb isAscii s = true -> forallb isAscii (map upperAscii s) = true.
Proof.
  induction s as [|c r IH]; [reflexivity|]. cbn [forallb map].
  intros H. unbool. rewrite (IH H0), andb_true_r.
  unfold upperAscii. destruct (isLowerAZ c) eqn:E; [|assumption].
  revert E H. units.
Qed.

(** X10.  On ASCII names the strict [generateEmail] does not see the case:
    a name and its upper-case form get the same address. *)
Theorem generateEmail_ignores_case name :
  forallb isAscii name = true ->
  generateEmail (toUpperCase name) = generateEmail name.
Proof.
  intros H. unfold generateEmail.
  rewrite (toUpperCase_ascii name H).
  rewrite (toLowerCase_ascii _ (upperAscii_ascii name H)).
  rewrite (toLowerCase_ascii name H), map_map.
  rewrite (map_ext _ _ lower_upper). reflexivity.
Qed.

End MoreEmail.

(** * More on the strict handler *)

Lemma generateSecurePassword_ext n e1 e2 :
  (forall i, (i < n)%nat -> e1 i = e2 i) ->
  generateSecurePassword n e1 = generateSecurePassword n e2.
Proof.
  intros H. unfold generateSecurePassword. f_equal.
  apply map_ext_in. intros i Hi. apply in_seq in Hi. now rewrite H by lia.
Qed.

Section MoreHandler.

Context {CM : CaseMapping}.
Variable cy : Z.
Variable p : Platform.

Lemma mapM_credentials rows : forall w,
  match mapM (credentials p) rows w with
  | (Return users, w') =>
      db w' = db w /\ trace w' = trace w
      /\ drawn w' = (drawn w + 16 * length rows)%nat
      /\ length users = length rows
      /\ forall k row, nth_error rows k = Some row ->
           exists n, name row = Some n
                     /\ nth_error users k
                        = Some (credentialsOf p (drawn w) k row n)
  | (Throw e, w') =>
      db w' = db w /\ trace w' = trace w
      /\ Exists (fun r => name r = None) rows
  end.
Proof.
  induction rows as [|row rows IH]; intros w.
  - cbn. repeat split; try lia. intros [|k] r H; discriminate.
  - cbn [mapM]. unfold bind at 1. unfold credentials at 1.
    destruct (name row) as [n|] eqn:En.
    + cbv [bind getRandomValues ret]. cbn [db drawn trace].
      match goal with
      | |- context [mapM _ rows ?w0] =>
          specialize (IH w0); destruct (mapM (credentials p) rows w0)
            as [[users|e] w2]
      end; cbn [db drawn trace] in IH.
      * destruct IH as (Hdb & Htr & Hdr & Hlen & Hnth).
        repeat split; try assumption; cbn [length]; try lia.
        intros [|k] r Hr; cbn [nth_error] in *.
        -- injection Hr as <-. exists n. split; [exact En|].
           unfold credentialsOf. rewrite En. do 2 f_equal.
           apply generateSecurePassword_ext. intros i _. f_equal. lia.
        -- destruct (Hnth k r Hr) as (m & Em & Hu). exists m.
           split; [exact Em|]. rewrite Hu. unfold credentialsOf.
           do 2 f_equal.
           apply generateSecurePassword_ext. intros i _. f_equal. lia.
      * destruct IH as (Hdb & Htr & Hex). repeat split; try assumption.
        now apply Exists_cons_tl.
    + cbv [throw]. repeat split. now apply Exists_cons_hd.
Qed.

(** Every way the strict handler can end: without touching the database,
    or with the records of a parsed batch inserted for an admin. *)
Lemma serve_outcome req w :
  exists resp w',
    serve cy p req w = (resp, w')
    /\ ((isSuccess resp = false /\ db w' = db w
         /\ (status resp = 200 \/ status resp = 400 \/ status resp = 403)%Z)
        \/ exists authHeader user_id csv rows users,
             streq (method req) (lit "OPTIONS") = false
             /\ authorization req = Some authHeader /\ authHeader <> []
             /\ authUser p (tokenOf authHeader) = Some user_id
             /\ roleQueryError p = None
             /\ holdsAdmin (db w) user_id = true
             /\ json req = Return (Some csv)
             /\ parseCSV cy csv = Return rows
             /\ resp = jsonResponse
                         (SuccessBody users (Z.of_nat (length users))) 200
             /\ db w' = {| user_roles := user_roles (db w);
                           imported_users :=
                             imported_users (db w)
                             ++ map (toRecord user_id) users |}
             /\ drawn w' = (drawn w + 16 * length rows)%nat
             /\ length users = length rows
             /\ (forall k row, nth_error rows k = Some row ->
                   exists n, name row = Some n
                             /\ nth_error users k
                                = Some (credentialsOf p (drawn w) k row n))
             /\ trace w'
                = trace w
                  ++ [AuthLookup (tokenOf authHeader); RoleQuery user_id;
                      ReadBody; ParseCSV csv;
                      Insert (map (toRecord user_id) users)]).
Proof.
  unfold serve, tokenOf.
  destruct (streq (method req) (lit "OPTIONS")) eqn:Hm.
  { eexists. eexists. split; [reflexivity|]. left. cbn. auto. }
  destruct (authorization req) as [[|a h]|] eqn:Ha;
    try (eexists; eexists; split; [reflexivity|]; left; cbn; now auto).
  cbv [catch bind getUser adminRoleQuery readBody lift tell ret throw
       db drawn trace].
  destruct (authUser p (removeFirst (lit "Bearer ") (a :: h)))
    as [user_id|] eqn:Hu;
    [|eexists; eexists; split; [reflexivity|]; left; cbn; now auto].
  destruct (roleQueryError p) as [e|] eqn:Hq;
    [eexists; eexists; split; [reflexivity|]; left; cbn; now auto|].
  destruct w as [d n t]. cbn [db drawn trace].
  destruct (holdsAdmin d user_id) eqn:Hr;
    [|eexists; eexists; split; [reflexivity|]; left; cbn; now auto].
  destruct (json req) as [[[|c csv]|]|e] eqn:Hj;
    try (eexists; eexists; split; [reflexivity|]; left; cbn; now auto).
  destruct (parseCSV cy (c :: csv)) as [rows|e] eqn:Hp;
    [|eexists; eexists; split; [reflexivity|]; left; cbn; now auto].
  match goal with
  | |- context [mapM (credentials p) rows ?w0] =>
      pose proof (mapM_credentials rows w0) as HM;
      destruct (mapM (credentials p) rows w0) as [[users|e] w2]
  end; cbn [db drawn trace] in HM;
    [|destruct HM as (Hdb & _);
      eexists; eexists; split; [reflexivity|]; left; cbn; now auto].
  destruct HM as (Hdb & Htr & Hdr & Hlen & Hnth).
  cbv [insertImported bind tell]. destruct w2 as [d2 n2 t2].
  cbn [db drawn trace] in *. subst d2 t2 n2.
  destruct (insertError p (map (toRecord user_id) users)) eqn:Hi;
    [eexists; eexists; split; [reflexivity|]; left; cbn; now auto|].
  eexists. eexists. split; [reflexivity|]. right.
  exists (a :: h), user_id, (c :: csv), rows, users.
  cbn [db drawn trace user_roles imported_users].
  repeat split; try assumption; try reflexivity; try discriminate.
  rewrite <- !app_assoc. reflexivity.
Qed.

End MoreHandler.

Section HandlerProperties.

Context {CM : CaseMapping}.
Variable cy : Z.
Variable p : Platform.

(** X11.  Whatever the request, the strict handler answers 200, 400 or
    403, leaves the role table alone and at most appends to the imported
    records; unless the response carries the generated users, the database
    is left as it was. *)
Theorem serve_status_and_frame req w :
  let resp := fst (serve cy p req w) in
  let w' := snd (serve cy p req w) in
  (status resp = 200 \/ status resp = 400 \/ status resp = 403)%Z
  /\ user_roles (db w') = user_roles (db w)
  /\ (exists records,
         imported_users (db w') = imported_users (db w) ++ records)
  /\ (isSuccess resp = false -> db w' = db w).
Proof.
  cbv zeta. destruct (serve_outcome cy p req w) as (resp & w' & -> & H).
  cbn [fst snd].
  destruct H as [(Hs & Hdb & Hst)
                |(h & u & csv & rows & users & H)].
  - rewrite Hdb. repeat split; try assumption.
    exists []. now rewrite app_nil_r.
  - destruct H as (_ & _ & _ & _ & _ & _ & _ & _ & -> & -> & _).
    cbn [status jsonResponse user_roles imported_users isSuccess body].
    repeat split; [now left | now eexists | discriminate].
Qed.

(** X12.  The strict handler inserts for admins only: when the imported
    records have changed, the request was not the preflight, its caller was
    authenticated and the role query has found the admin role. *)
Theorem only_admins_insert req w :
  imported_users (db (snd (serve cy p req w))) <> imported_users (db w) ->
  exists authHeader user_id,
    streq (method req) (lit "OPTIONS") = false
    /\ authorization req = Some authHeader
    /\ authUser p (tokenOf authHeader) = Some user_id
    /\ roleQueryError p = None
    /\ holdsAdmin (db w) user_id = true.
Proof.
  destruct (serve_outcome cy p req w) as (resp & w' & -> & H).
  cbn [snd]. intros Hchanged.
  destruct H as [(_ & Hdb & _)|(h & u & csv & rows & users & H)].
  - rewrite Hdb in Hchanged. congruence.
  - destruct H as (Hm & Ha & _ & Hu & Hq & Hr & _). now exists h, u.
Qed.

(** X13.  Every record that the strict handler inserts comes from a row
    that passes the three checks, is owned by the authenticated caller,
    carries the address [generateEmail] makes from its name and a password
    of 16 characters of the charset. *)
Theorem inserted_records_are_valid req w :
  exists records,
    imported_users (db (snd (serve cy p req w)))
    = imported_users (db w) ++ records
    /\ Forall
         (fun r =>
            passesChecks cy {| name := iu_full_name r;
                               postal_code := iu_postal_code r;
                               birthday := iu_birthday r |}
            /\ (exists authHeader,
                   authorization req = Some authHeader
                   /\ authUser p (tokenOf authHeader) = Some (imported_by r))
            /\ (exists n, iu_full_name r = Some n
                          /\ iu_generated_email r = generateEmail n)
            /\ length (iu_generated_password r) = 16%nat
            /\ Forall (fun c => In c charset) (iu_generated_password r))
         records.
Proof.
  destruct (serve_outcome cy p req w) as (resp & w' & -> & H).
  cbn [snd].
  destruct H as [(_ & Hdb & _)|(h & u & csv & rows & users & H)].
  - exists []. rewrite Hdb, app_nil_r. split; [reflexivity | constructor].
  - destruct H as (_ & Ha & _ & Hu & _ & _ & _ & Hp & _ & -> & _ & Hlen
                   & Hnth & _).
    exists (map (toRecord u) users). split; [reflexivity|].
    apply parseCSV_Return in Hp as [_ Hrows].
    assert (Hpass : Forall (passesChecks cy) rows)
      by (rewrite Hrows; apply rowLoop_rows_pass).
    apply Forall_forall. intros r Hin.
    apply in_map_iff in Hin as (g & <- & Hg).
    apply In_nth_error in Hg as (k & Hk).
    assert (Hkr : (k < length rows)%nat)
      by (rewrite <- Hlen; apply nth_error_Some; congruence).
    destruct (nth_error rows k) as [row|] eqn:Erow;
      [|apply nth_error_None in Erow; lia].
    destruct (Hnth k row Erow) as (n & En & Hg'). rewrite Hk in Hg'.
    injection Hg' as ->.
    rewrite Forall_forall in Hpass.
    pose proof (Hpass row (nth_error_In _ _ Erow)) as Hrow.
    cbn [toRecord credentialsOf iu_full_name iu_postal_code iu_birthday
         imported_by iu_generated_email iu_generated_password
         full_name gu_postal_code gu_birthday generated_email
         generated_password].
    split; [destruct row; exact Hrow|].
    split; [now exists h|]. split; [now exists n|].
    unfold generateSecurePassword.
    match goal with
    | |- context [flat_map _ ?arr] =>
        destruct (password_of_bytes arr) as [Hl Hc]
    end.
    rewrite length_map, length_seq in Hl. split; assumption.
Qed.

(** X14.  In a successful response the count is the number of users,
    between 1 and 1000; each user has taken 16 random bytes of its own,
    the user number [k] those from position [16 * k] after the bytes drawn
    before, so that no byte serves two passwords. *)
Theorem passwords_use_fresh_bytes req w users count :
  body (fst (serve cy p req w)) = SuccessBody users count ->
  count = Z.of_nat (length users)
  /\ (1 <= length users <= 1000)%nat
  /\ drawn (snd (serve cy p req w)) = (drawn w + 16 * length users)%nat
  /\ forall k u, nth_error users k = Some u ->
       generated_password u
       = generateSecurePassword 16
           (fun i => entropy p (drawn w + 16 * k + i)).
Proof.
  destruct (serve_outcome cy p req w) as (resp & w' & -> & H).
  cbn [fst snd]. intros Hbody.
  destruct H as [(Hs & _)|(h & u & csv & rows & us & H)].
  - unfold isSuccess in Hs. rewrite Hbody in Hs. discriminate.
  - destruct H as (_ & _ & _ & _ & _ & _ & _ & Hp & -> & _ & Hdr & Hlen
                   & Hnth & _).
    cbn [body jsonResponse] in Hbody. injection Hbody as -> <-.
    apply parseCSV_Return_count in Hp as [Hcount _].
    repeat split; try lia.
    intros k g Hk.
    assert (Hkr : (k < length rows)%nat)
      by (rewrite <- Hlen; apply nth_error_Some; congruence).
    destruct (nth_error rows k) as [row|] eqn:Erow;
      [|apply nth_error_None in Erow; lia].
    destruct (Hnth k row Erow) as (n & _ & Hg). rewrite Hk in Hg.
    injection Hg as ->. reflexivity.
Qed.

(** X15.  A request other than the preflight that carries no authorization
    header, or an empty one, is answered 400 with nothing looked up; one
    whose token the auth service does not know is answered 400 after that
    one lookup.  Neither reaches the role query, the body or the
    database. *)
Theorem unauthenticated_requests_get_400 req w :
  streq (method req) (lit "OPTIONS") = false ->
  (authorization req = None \/ authorization req = Some [] ->
   serve cy p req w
   = (jsonResponse (ErrorBody (lit "No authorization header")) 400, w))
  /\ (forall authHeader,
         authorization req = Some authHeader -> authHeader <> [] ->
         authUser p (tokenOf authHeader) = None ->
         serve cy p req w
         = (jsonResponse (ErrorBody (lit "Unauthorized")) 400,
            {| db := db w; drawn := drawn w;
               trace := trace w ++ [AuthLookup (tokenOf authHeader)] |})).
Proof.
  intros Hm. unfold serve, tokenOf. rewrite Hm. split.
  - intros [->| ->]; reflexivity.
  - intros [|a h] -> Hne Hu; [congruence|].
    cbv [catch bind getUser tell ret throw db drawn trace].
    now rewrite Hu.
Qed.

End HandlerProperties.

(** ** The token *)

Lemma removeFirst_prefix pat t : removeFirst pat (pat ++ t) = t.
Proof.
  destruct (pat ++ t) as [|c r] eqn:E; cbn [removeFirst].
  - apply app_eq_nil in E as [-> ->]. reflexivity.
  - rewrite <- E, startsWith_app. rewrite skipn_app, skipn_all.
    now rewrite Nat.sub_diag.
Qed.

Lemma removeFirst_absent pat t : includes t pat = false -> removeFirst pat t = t.
Proof.
  induction t as [|c r IH]; cbn [includes removeFirst]; intros H;
    apply orb_false_iff in H as [H1 H2]; rewrite H1; [reflexivity|].
  now rewrite (IH H2).
Qed.

(** X16.  The [Bearer] prefix is optional: an authorization header that is
    the bare token is handled exactly as the same token after [Bearer],
    since the prefix is removed by a replacement that leaves other headers
    as they are. *)
Theorem bearer_prefix_is_optional {CM : CaseMapping} cy p m token j w :
  token <> [] -> includes token (lit "Bearer ") = false ->
  serve cy p {| method := m;
                authorization := Some (lit "Bearer " ++ token);
                json := j |} w
  = serve cy p {| method := m; authorization := Some token; json := j |} w.
Proof.
  intros Hne Habs. unfold serve. cbn [method authorization json].
  destruct (streq m (lit "OPTIONS")); [reflexivity|].
  destruct token as [|c t]; [congruence|].
  rewrite (removeFirst_absent _ _ Habs).
  change (lit "Bearer " ++ c :: t)
    with (66%N :: tl (lit "Bearer ") ++ c :: t) at 1.
  cbv beta iota.
  change (66%N :: tl (lit "Bearer ") ++ c :: t)
    with (lit "Bearer " ++ c :: t).
  now rewrite removeFirst_prefix.
Qed.

(** * More on the permissive variant *)

Lemma findIndex_range {A} (test : A -> bool) l :
  (findIndex test l = -1 \/ 0 <= findIndex test l < Z.of_nat (length l))%Z.
Proof.
  unfold findIndex.
  destruct (findIndexFrom_spec test l 0)
    as [[-> _]|(k & x & -> & Hnth & _)]; [now left|right].
  assert ((k < length l)%nat) by (apply nth_error_Some; congruence). lia.
Qed.

Lemma at_defined {A} (l : list A) i :
  (0 <= i < Z.of_nat (length l))%Z -> at_ l i <> None.
Proof.
  intros Hi. unfold at_. rewrite ltb_false by lia.
  apply nth_error_Some. lia.
Qed.

Section MorePermissive.

Context {CM : CaseMapping}.

(** X17.  The permissive [parseCSV] drops a line of fewer than three
    fields without a word: a batch whose header resolves the three columns
    and whose data lines are all that short is accepted, with no row. *)
Theorem permissive_short_lines_are_dropped csv :
  (2 <= Z.of_nat (length (Permissive.linesOf csv)))%Z ->
  Permissive.nameIndexOf csv <> (-1)%Z ->
  Permissive.postalIndexOf csv <> (-1)%Z ->
  Permissive.birthdayIndexOf csv <> (-1)%Z ->
  Forall (fun line => (length (split 44 line) < 3)%nat)
    (tl (Permissive.linesOf csv)) ->
  Permissive.parseCSV csv = Return [].
Proof.
  intros Hlines Hn Hp Hb Hshort. unfold Permissive.parseCSV.
  rewrite ltb_false by lia.
  apply Z.eqb_neq in Hn, Hp, Hb. rewrite Hn, Hp, Hb. cbn [orb].
  f_equal. unfold Permissive.rowsOf.
  induction Hshort as [|line rest Hline _ IH]; [reflexivity|].
  cbn [flat_map]. rewrite IH, length_map.
  replace (Z.of_nat (length (split 44 line)) >=? 3)%Z with false
    by (symmetry; rewrite Z.geb_leb; apply Z.leb_gt; lia).
  reflexivity.
Qed.

(** X18.  The rows that the permissive [parseCSV] returns have their three
    fields defined when every data line has a field at each resolved
    column position. *)
Theorem permissive_rows_defined_when_lines_are_long csv rows :
  Permissive.parseCSV csv = Return rows ->
  Forall (fun line =>
            let n := Z.of_nat (length (split 44 line)) in
            (Permissive.nameIndexOf csv < n)%Z
            /\ (Permissive.postalIndexOf csv < n)%Z
            /\ (Permissive.birthdayIndexOf csv < n)%Z)
    (tl (Permissive.linesOf csv)) ->
  Forall allDefined rows
  /\ (length rows <= length (tl (Permissive.linesOf csv)))%nat.
Proof.
  unfold Permissive.parseCSV.
  destruct (_ <? _)%Z; [discriminate|].
  destruct (Z.eqb_spec (Permissive.nameIndexOf csv) (-1)) as [|Hn];
    [discriminate|].
  destruct (Z.eqb_spec (Permissive.postalIndexOf csv) (-1)) as [|Hp];
    [discriminate|].
  destruct (Z.eqb_spec (Permissive.birthdayIndexOf csv) (-1)) as [|Hb];
    [discriminate|].
  cbn [orb]. intros [= <-] Hlong.
  assert (H0n : (0 <= Permissive.nameIndexOf csv)%Z).
  { unfold Permissive.nameIndexOf in *.
    match goal with
    | |- context [findIndex ?t ?l] => destruct (findIndex_range t l)
    end; [congruence | lia]. }
  assert (H0p : (0 <= Permissive.postalIndexOf csv)%Z).
  { unfold Permissive.postalIndexOf in *.
    match goal with
    | |- context [findIndex ?t ?l] => destruct (findIndex_range t l)
    end; [congruence | lia]. }
  assert (H0b : (0 <= Permissive.birthdayIndexOf csv)%Z).
  { unfold Permissive.birthdayIndexOf in *.
    match goal with
    | |- context [findIndex ?t ?l] => destruct (findIndex_range t l)
    end; [congruence | lia]. }
  unfold Permissive.rowsOf.
  induction Hlong as [|line rest Hline _ [IH1 IH2]];
    [split; [constructor | reflexivity]|].
  cbn [flat_map length]. cbv zeta in Hline. destruct Hline as (Ln & Lp & Lb).
  destruct (_ >=? 3)%Z.
  - cbn [app length]. split; [|lia]. constructor; [|exact IH1].
    unfold allDefined. cbn [name postal_code birthday].
    repeat split; apply at_defined; rewrite length_map; lia.
  - cbn [app]. split; [exact IH1 | lia].
Qed.

End MorePermissive.

Section MorePermissiveHandler.

Context {CM : CaseMapping}.

Lemma permissive_mapM_credentials rows : forall w,
  match mapM Permissive.credentials rows w with
  | (Return users, w') =>
      w' = w /\ Forall allDefined rows /\ length users = length rows
  | (Throw e, w') =>
      w' = w /\ (exists m, e = typeError m)
      /\ Exists (fun r => ~ allDefined r) rows
  end.
Proof.
  induction rows as [|row rows IH]; intros w.
  - cbn. repeat split. constructor.
  - cbn [mapM]. unfold bind at 1. unfold Permissive.credentials at 1.
    destruct (name row) as [n|] eqn:En;
      [destruct (postal_code row) as [pc|] eqn:Ep;
       [destruct (birthday row) as [b|] eqn:Eb|]|];
      try (cbv [throw]; split; [reflexivity|]; split; [now eexists|];
           apply Exists_cons_hd; unfold allDefined; tauto).
    cbv [ret bind]. specialize (IH w).
    destruct (mapM Permissive.credentials rows w) as [[users|e] w2].
    + destruct IH as (-> & Hall & Hlen). repeat split.
      * constructor; [|exact Hall]. unfold allDefined.
        rewrite En, Ep, Eb. repeat split; discriminate.
      * cbn [length]. now rewrite Hlen.
    + destruct IH as (-> & Hm & Hex). repeat split; try assumption.
      now apply Exists_cons_tl.
Qed.

(** X19.  When the permissive [parseCSV] has returned a row with an
    undefined field, the permissive handler fails on it while it makes the
    credentials: it answers 400 with the type error of the string method
    it has called on [undefined], and inserts nothing. *)
Theorem permissive_undefined_field_gives_400 p req w authHeader user_id
  csv rows :
  streq (method req) (lit "OPTIONS") = false ->
  authorization req = Some authHeader -> authHeader <> [] ->
  authUser p (tokenOf authHeader) = Some user_id ->
  json req = Return (Some csv) -> csv <> [] ->
  Permissive.parseCSV csv = Return rows ->
  Exists (fun r => ~ allDefined r) rows ->
  exists m,
    Permissive.serve p req w
    = (jsonResponse (ErrorBody (typeError m)) 400,
       {| db := db w; drawn := drawn w;
          trace := trace w ++ [AuthLookup (tokenOf authHeader); ReadBody;
                               ParseCSV csv] |}).
Proof.
  intros Hm Ha Hne Hu Hj Hcsv Hp Hex. unfold Permissive.serve, tokenOf in *.
  rewrite Hm, Ha. destruct authHeader as [|a h]; [congruence|].
  cbv [catch bind getUser readBody lift tell ret throw db drawn trace].
  rewrite Hu, Hj. destruct csv as [|c csv]; [congruence|]. rewrite Hp.
  match goal with
  | |- context [mapM Permissive.credentials rows ?w0] =>
      pose proof (permissive_mapM_credentials rows w0) as HM;
      destruct (mapM Permissive.credentials rows w0) as [[users|e] w2]
  end.
  - destruct HM as (_ & Hall & _). exfalso.
    apply Exists_exists in Hex as (r & Hin & Hr).
    rewrite Forall_forall in Hall. exact (Hr (Hall r Hin)).
  - destruct HM as (-> & (m & ->) & _). exists m.
    rewrite <- !app_assoc. reflexivity.
Qed.

End MorePermissiveHandler.

(** ** The derived password *)

Lemma splitWsRuns_parts (P : N -> bool) s : forall b,
  forallb P s = true ->
  Forall (fun part =>
            forallb (fun c => P c && negb (isWhiteSpace c)) part = true)
    (Permissive.splitWsRuns b s).
Proof.
  induction s as [|c r IH]; intros b H; [repeat constructor|].
  cbn [forallb] in H. unbool. cbn [Permissive.splitWsRuns].
  destruct (isWhiteSpace c) eqn:Hc.
  - destruct b; [now apply IH|]. constructor; [reflexivity | now apply IH].
  - specialize (IH false H0).
    destruct (Permissive.splitWsRuns false r) as [|w ws].
    + repeat constructor. cbn [forallb]. now rewrite H, Hc.
    + inversion IH; subst. constructor; [|assumption].
      cbn [forallb]. rewrite H, Hc. assumption.
Qed.

Lemma Forall_hd_last {A} (Q : A -> Prop) d l :
  Q d -> Forall Q l -> Q (hd d l) /\ Q (last l d).
Proof.
  intros Hd H. split; [destruct H; assumption|].
  induction H as [|x l Hx H IH]; [assumption|].
  destruct l; [assumption|]. exact IH.
Qed.

Lemma name_unit_ascii c :
  nameClass c && negb (isWhiteSpace c) = true -> isAscii c = true.
Proof.
  unfold nameClass. destruct (isWhiteSpace c); [now rewrite andb_false_r|].
  rewrite andb_true_r, orb_false_r. units.
Qed.

Lemma lastFour_length s : length (Permissive.lastFour s) = Nat.min 4 (length s).
Proof. unfold Permissive.lastFour. rewrite length_skipn. lia. Qed.

Lemma orElse_length a b lo hi :
  (length a <= hi)%nat -> (lo <= length b <= hi)%nat -> (lo <= 1)%nat ->
  (lo <= length (Permissive.orElse a b) <= hi)%nat.
Proof. intros. destruct a; cbn [Permissive.orElse length] in *; lia. Qed.

Lemma year_text b :
  birthdayPattern b = true -> length (hd [] (split 45 b)) = 4%nat.
Proof.
  unfold birthdayPattern.
  do 10 (destruct b as [|? b]; try discriminate).
  destruct b; try discriminate. intro H. unbool.
  repeat match goal with
         | E : (?h =? 45)%N = true |- _ => apply N.eqb_eq in E; subst h
         end.
  unfold split.
  match goal with
  | |- context [splitOn _ (?a :: ?b :: ?c :: ?d :: 45%N :: ?r)] =>
      change (a :: b :: c :: d :: 45%N :: r)
        with ([a; b; c; d] ++ 45%N :: r);
      rewrite splitOn_app;
      [ | cbn [forallb]; now rewrite !digit_not_hyphen | reflexivity ]
  end.
  reflexivity.
Qed.

(** X20.  For a name in the name class and a birthday of the date shape,
    whatever the postal code, the password that the permissive
    [generatePassword] derives has 8 to 11 units: one unit for each of the
    two initials, one to four postal digits, the four digits of the year
    and the exclamation mark. *)
Theorem generatePassword_length {CM : CaseMapping} n pc b :
  forallb nameClass n = true -> birthdayPattern b = true ->
  (8 <= length (Permissive.generatePassword n pc b) <= 11)%nat.
Proof.
  intros Hn Hb. unfold Permissive.generatePassword.
  pose proof (splitWsRuns_parts nameClass (trim n) false
                (forallb_trim nameClass n Hn)) as Hparts.
  destruct (Forall_hd_last _ [] _ eq_refl Hparts) as [Hfirst Hlast].
  assert (Hinit : forall part d,
             forallb (fun c => nameClass c && negb (isWhiteSpace c)) part
             = true ->
             length d = 1%nat ->
             length (Permissive.orElse (Permissive.initial part) d) = 1%nat).
  { intros part d Hpart Hlen. unfold Permissive.initial.
    assert (Ha : forallb isAscii (firstn 1 part) = true).
    { destruct part as [|c r]; [reflexivity|]. cbn [firstn forallb] in *.
      apply andb_true_iff in Hpart as [Hc _].
      now rewrite (name_unit_ascii c Hc). }
    rewrite (toUpperCase_ascii _ Ha).
    destruct part as [|c r]; [exact Hlen | reflexivity]. }
  pose proof (lastFour_length (filter isDigit pc)) as Hd.
  assert (Hdigits :
            (1 <= length (Permissive.orElse
                            (Permissive.lastFour (filter isDigit pc))
                            (lit "0000")) <= 4)%nat).
  { apply orElse_length; [lia | cbn; lia | lia]. }
  assert (Hyear : length (Permissive.orElse (hd [] (split 45 b))
                            (lit "1990")) = 4%nat).
  { pose proof (year_text b Hb) as Hy.
    destruct (hd [] (split 45 b)); [discriminate | exact Hy]. }
  pose proof (Hinit _ (lit "A") Hfirst eq_refl) as H1.
  pose proof (Hinit _ (lit "Z") Hlast eq_refl) as H2.
  rewrite !length_app. unfold jsstring in *. rewrite H1, H2, Hyear.
  change (length (lit "!")) with 1%nat. lia.
Qed.

(** * Export and import *)

Lemma splitOn_join sep parts :
  parts <> [] ->
  Forall (fun part => forallb (fun c => negb (sep =? c)%N) part = true)
    parts ->
  splitOn (N.eqb sep) (join [sep] parts) = parts.
Proof.
  intros Hne H. induction H as [|part rest Hpart Hrest IH]; [congruence|].
  destruct rest as [|q rest].
  - cbn [join]. now apply splitOn_none.
  - change (join [sep] (part :: q :: rest))
      with (part ++ sep :: join [sep] (q :: rest)).
    rewrite splitOn_app; [|exact Hpart | apply N.eqb_refl].
    f_equal. apply IH. discriminate.
Qed.

Lemma forallb_join (P : N -> bool) sep parts :
  forallb P sep = true ->
  Forall (fun part => forallb P part = true) parts ->
  forallb P (join sep parts) = true.
Proof.
  intros Hsep H. induction H as [|part rest Hpart Hrest IH]; [reflexivity|].
  destruct rest as [|q rest]; [exact Hpart|].
  change (join sep (part :: q :: rest))
    with (part ++ sep ++ join sep (q :: rest)).
  now rewrite !forallb_app, Hpart, Hsep, IH.
Qed.

Lemma trimEnd_snoc s c :
  isWhiteSpace c = false -> trimEnd (s ++ [c]) = s ++ [c].
Proof.
  intros Hc. induction s as [|d s IH]; cbn [app trimEnd].
  - now rewrite Hc.
  - rewrite IH. destruct (s ++ [c]) eqn:E; [|reflexivity].
    now apply app_eq_nil in E as [_ E].
Qed.

Lemma trim_between c s d :
  isWhiteSpace c = false -> isWhiteSpace d = false ->
  trim (c :: s ++ [d]) = c :: s ++ [d].
Proof.
  intros Hc Hd. unfold trim. cbn [trimStart]. rewrite Hc.
  exact (trimEnd_snoc (c :: s) d Hd).
Qed.

Lemma stripTrailingQuote_snoc s : stripTrailingQuote (s ++ [34%N]) = s.
Proof.
  induction s as [|c s IH]; [reflexivity|]. cbn [app].
  destruct (s ++ [34%N]) eqn:E; [now apply app_eq_nil in E as [_ E]|].
  change (stripTrailingQuote (c :: n :: l))
    with (c :: stripTrailingQuote (n :: l)).
  now rewrite IH.
Qed.

(** A quoted cell is read back as the cell, less a leading formula
    character. *)
Lemma sanitizeCSVValue_quoted cell :
  sanitizeCSVValue (quoteCell cell)
  = if beginsWithFormula cell then tl cell else cell.
Proof.
  unfold sanitizeCSVValue, quoteCell. cbn [app].
  rewrite (trim_between 34 cell 34 eq_refl eq_refl).
  unfold stripQuotes. cbn [stripLeadingQuote].
  change (isQuote 34) with true. cbv iota.
  rewrite stripTrailingQuote_snoc, startsWith_formula. reflexivity.
Qed.

(** An export line begins and ends with a double quote. *)
Lemma exportLine_shape u : exists x, exportLine u = 34%N :: x ++ [34%N].
Proof.
  unfold exportLine, exportCells, quoteCell.
  set (c1 := unwrap (full_name u)). set (c2 := unwrap (gu_postal_code u)).
  set (c3 := unwrap (gu_birthday u)). set (c4 := generated_email u).
  set (c5 := generated_password u).
  exists (c1 ++ [34; 44; 34]%N ++ c2 ++ [34; 44; 34]%N ++ c3
          ++ [34; 44; 34]%N ++ c4 ++ [34; 44; 34]%N ++ c5).
  cbn [map join]. change (lit ",") with [44%N].
  repeat (rewrite <- app_assoc; cbn [app]). reflexivity.
Qed.

Lemma plain_no_feed cell :
  forallb plainUnit cell = true ->
  forallb (fun c => negb (10 =? c)%N) cell = true.
Proof.
  apply forallb_impl. intros c H. unfold plainUnit in H.
  apply andb_true_iff in H as [H _]. exact H.
Qed.

Lemma plain_no_comma cell :
  forallb plainUnit cell = true ->
  forallb (fun c => negb (44 =? c)%N) cell = true.
Proof.
  apply forallb_impl. intros c H. unfold plainUnit in H.
  apply andb_true_iff in H as [_ H]. exact H.
Qed.

Lemma exportLine_no_feed u :
  Forall (fun cell => forallb plainUnit cell = true) (exportCells u) ->
  forallb (fun c => negb (10 =? c)%N) (exportLine u) = true.
Proof.
  intros H. unfold exportLine. apply forallb_join; [reflexivity|].
  apply Forall_map. eapply Forall_impl; [|exact H].
  intros cell Hc. unfold quoteCell. rewrite !forallb_app.
  now rewrite (plain_no_feed cell Hc).
Qed.

Lemma exportLine_fields u :
  Forall (fun cell => forallb plainUnit cell = true) (exportCells u) ->
  split 44 (exportLine u) = map quoteCell (exportCells u).
Proof.
  intros H. unfold split, exportLine. change (lit ",") with [44%N].
  apply splitOn_join; [discriminate|].
  apply Forall_map. eapply Forall_impl; [|exact H].
  intros cell Hc. unfold quoteCell. rewrite !forallb_app.
  now rewrite (plain_no_comma cell Hc).
Qed.

Lemma exportLine_trim u : trim (exportLine u) = exportLine u.
Proof.
  destruct (exportLine_shape u) as (x & ->). now apply trim_between.
Qed.

Lemma join_ends_with (c : N) sep lines :
  lines <> [] ->
  Forall (fun l => exists x, l = x ++ [c]) lines ->
  exists x, join sep lines = x ++ [c].
Proof.
  intros Hne H. induction H as [|l rest (x & ->) _ IH]; [congruence|].
  destruct rest as [|q rest]; [now exists x|].
  destruct IH as (y & Ey); [discriminate|].
  exists ((x ++ [c]) ++ sep ++ y).
  change (join sep ((x ++ [c]) :: q :: rest))
    with ((x ++ [c]) ++ sep ++ join sep (q :: rest)).
  rewrite Ey. now rewrite <- !app_assoc.
Qed.

Lemma filter_all {A} (f : A -> bool) l :
  Forall (fun x => f x = true) l -> filter f l = l.
Proof.
  induction 1 as [|x l Hx _ IH]; [reflexivity|]. cbn [filter].
  now rewrite Hx, IH.
Qed.

Lemma exportLine_nonblank u : (strlen (trim (exportLine u)) >? 0)%Z = true.
Proof.
  rewrite exportLine_trim. destruct (exportLine_shape u) as (x & ->).
  apply gtb_true. unfold strlen. cbn [length]. lia.
Qed.

Lemma linesOf_downloadCSV users :
  users <> [] ->
  Forall (fun u => Forall (fun cell => forallb plainUnit cell = true)
                     (exportCells u)) users ->
  linesOf (downloadCSV users)
  = join (lit ",") exportHeaders :: map exportLine users.
Proof.
  intros Hne Hplain. unfold linesOf.
  assert (Htrim : trim (downloadCSV users) = downloadCSV users).
  { unfold downloadCSV.
    destruct (join_ends_with 34 [10%N] (map exportLine users)) as (y & Ey).
    - destruct users; [congruence | discriminate].
    - apply Forall_map, Forall_forall. intros u _.
      destruct (exportLine_shape u) as (x & ->).
      now exists (34%N :: x).
    - destruct (map exportLine users) as [|l ls] eqn:E;
        [destruct users; [congruence | discriminate]|].
      change (join [10%N] (join (lit ",") exportHeaders :: l :: ls))
        with (70%N :: (tl (join (lit ",") exportHeaders)
                       ++ [10%N] ++ join [10%N] (l :: ls))).
      rewrite Ey, !app_assoc. now apply trim_between. }
  rewrite Htrim. unfold split, downloadCSV.
  rewrite splitOn_join; [|discriminate|].
  - apply filter_all. constructor; [reflexivity|].
    apply Forall_map, Forall_forall. intros u _. apply exportLine_nonblank.
  - constructor; [reflexivity|].
    apply Forall_map. eapply Forall_impl; [|exact Hplain].
    intros u. apply exportLine_no_feed.
Qed.

Lemma at_0 {A} (a : A) l : at_ (a :: l) 0 = Some a.
Proof. reflexivity. Qed.
Lemma at_1 {A} (a b : A) l : at_ (a :: b :: l) 1 = Some b.
Proof. reflexivity. Qed.
Lemma at_2 {A} (a b c : A) l : at_ (a :: b :: c :: l) 2 = Some c.
Proof. reflexivity. Qed.

Lemma date_not_formula cy b :
  valid (validateBirthday cy (Some b)) = true -> beginsWithFormula b = false.
Proof.
  intros H. apply validateBirthday_valid in H as (b' & y & [= <-] & Hpat & _).
  unfold birthdayPattern in Hpat. destruct b as [|c b]; [reflexivity|].
  do 9 (destruct b as [|? b]; try discriminate).
  destruct b; [|discriminate]. unbool. cbn [beginsWithFormula].
  unfold isFormulaChar.
  match goal with H : isDigit c = true |- _ => revert H end. units.
Qed.

Section ExportImport.

Context {CM : CaseMapping}.
Variable cy : Z.

Lemma export_headers :
  headersOf (join (lit ",") exportHeaders)
  = [lit "full name"; lit "postal code"; lit "birthday";
     lit "generated email"; lit "generated password"].
Proof.
  unfold headersOf.
  change (split 44 (join (lit ",") exportHeaders)) with exportHeaders.
  unfold exportHeaders. cbn [map].
  change (sanitizeCSVValue (lit "Full Name")) with (lit "Full Name").
  change (sanitizeCSVValue (lit "Postal Code")) with (lit "Postal Code").
  change (sanitizeCSVValue (lit "Birthday")) with (lit "Birthday").
  change (sanitizeCSVValue (lit "Generated Email"))
    with (lit "Generated Email").
  change (sanitizeCSVValue (lit "Generated Password"))
    with (lit "Generated Password").
  rewrite !toLowerCase_ascii by reflexivity. reflexivity.
Qed.

Lemma checkRow_exportLine i u :
  exportable cy u ->
  checkRow cy 0 1 2 i (exportLine u) = inr (rowOfUser u).
Proof.
  intros ((Hn & Hp & Hb) & Hplain & Hfn & Hfp).
  unfold checkRow, fieldsOf. rewrite (exportLine_fields u Hplain).
  unfold exportCells. cbn [map]. rewrite at_0, at_1, at_2.
  rewrite !sanitizeCSVValue_quoted.
  destruct u as [fn pc bd em pw].
  cbn [rowOfUser name postal_code birthday full_name gu_postal_code
       gu_birthday] in *.
  destruct fn as [n|]; [|discriminate Hn].
  destruct pc as [pcode|]; [|discriminate Hp].
  destruct bd as [b|]; [|discriminate Hb].
  cbn [unwrap] in *. rewrite Hfn, Hfp, (date_not_formula cy b Hb).
  rewrite Hn, Hp, Hb. reflexivity.
Qed.

Lemma rowLoop_export users : forall i,
  Forall (exportable cy) users ->
  rowLoop cy 0 1 2 i (map exportLine users) = (map rowOfUser users, []).
Proof.
  induction users as [|u users IH]; intros i H; [reflexivity|].
  inversion H as [|? ? Hu Hrest]; subst. cbn [map rowLoop].
  rewrite exportLine_trim, (IH (i + 1)%Z Hrest), (checkRow_exportLine i u Hu).
  destruct (exportLine_shape u) as (x & ->). reflexivity.
Qed.

(** X21.  What the results table exports, the strict parser reads back:
    for 1 to 1000 users whose fields pass the checks, whose cells hold no
    line feed and no comma and whose name and postal code do not begin
    with a formula character, [parseCSV] of the exported text (when within
    the size limit) returns the users' rows, in order. *)
Theorem export_is_read_back users :
  (1 <= length users <= 1000)%nat ->
  (strlen (downloadCSV users) <= 5 * 1024 * 1024)%Z ->
  Forall (exportable cy) users ->
  parseCSV cy (downloadCSV users) = Return (map rowOfUser users).
Proof.
  intros Hcount Hsize Hex.
  assert (Hne : users <> []) by (intros ->; cbn in Hcount; lia).
  assert (Hplain : Forall (fun u => Forall (fun cell =>
                                      forallb plainUnit cell = true)
                                      (exportCells u)) users).
  { eapply Forall_impl; [|exact Hex]. intros u (_ & H & _). exact H. }
  pose proof (linesOf_downloadCSV users Hne Hplain) as Hlines.
  assert (Hlim : withinLimits (downloadCSV users)).
  { split; [exact Hsize|]. unfold dataLinesOf. rewrite Hlines.
    cbn [tl]. rewrite length_map. lia. }
  rewrite (parseCSV_withinLimits cy _ Hlim).
  unfold nameIndexOf, postalIndexOf, birthdayIndexOf, dataLinesOf.
  rewrite Hlines. cbn [hd tl]. rewrite export_headers.
  change (findIndex isNameHeader _) with 0%Z.
  change (findIndex isPostalHeader _) with 1%Z.
  change (findIndex isBirthdayHeader _) with 2%Z.
  cbn [Z.eqb orb]. rewrite (rowLoop_export users 1 Hex).
  unfold finish. cbn [fst snd].
  destruct users; [congruence | reflexivity].
Qed.

End ExportImport.

(** * The further properties at sample inputs *)

Lemma parseCSV_returns_1_to_1000_rows_witness :
  parseCSV 2025 sampleCsv = Return [bobRow]
  /\ (1 <= length [bobRow] <= 1000)%nat.
Proof.
  assert (H : parseCSV 2025 sampleCsv = Return [bobRow])
    by (vm_compute; reflexivity).
  split; [exact H|].
  exact (proj1 (parseCSV_returns_1_to_1000_rows 2025 sampleCsv _ H)).
Defined.

Lemma parseCSV_single_line_witness :
  parseCSV 2025 (lit "name,postal,birth") = Throw needsDataRow.
Proof.
  assert (Hsize : (strlen (lit "name,postal,birth") <= 5 * 1024 * 1024)%Z)
    by (vm_compute; intros Hc; discriminate Hc).
  exact (parseCSV_single_line 2025 (lit "name,postal,birth") Hsize eq_refl).
Defined.

Lemma validateBirthday_ignores_month_and_day_witness :
  valid (validateBirthday 2025 (Some (lit "2020-13-45"))) = true.
Proof.
  assert (Hy : (1900 <= digitsValue 0 [50; 48; 50; 48]%N <= 2025)%Z)
    by (vm_compute; split; intros Hc; discriminate Hc).
  exact (validateBirthday_ignores_month_and_day 2025 50 48 50 48 49 51 52 53
           eq_refl Hy).
Defined.

Lemma accepted_fields_first_unit_witness :
  parseCSV 2025 sampleCsv = Return [bobRow]
  /\ exists c1 c2 c3,
       firstUnit (name bobRow) = Some c1
       /\ firstUnit (postal_code bobRow) = Some c2
       /\ firstUnit (birthday bobRow) = Some c3
       /\ (c1 <> 61 /\ c1 <> 43 /\ c1 <> 64)%N
       /\ (c2 <> 61 /\ c2 <> 43 /\ c2 <> 64)%N
       /\ isDigit c3 = true.
Proof.
  assert (H : parseCSV 2025 sampleCsv = Return [bobRow])
    by (vm_compute; reflexivity).
  split; [exact H|].
  exact (Forall_inv (accepted_fields_first_unit 2025 sampleCsv _ H)).
Defined.

Lemma resolved_column_is_first_match_witness :
  nameIndexOf sampleCsv = 0%Z
  /\ firstMatch isNameHeader (headersOf (hd [] (linesOf sampleCsv)))
       (nameIndexOf sampleCsv).
Proof.
  split; [reflexivity|].
  assert (Hn : nameIndexOf sampleCsv <> (-1)%Z)
    by (vm_compute; intros Hc; discriminate Hc).
  exact (proj1 (resolved_column_is_first_match sampleCsv) Hn).
Defined.

Lemma generateEmail_ignores_case_witness :
  generateEmail (toUpperCase (lit "John Smith"))
  = generateEmail (lit "John Smith").
Proof.
  assert (H : forallb isAscii (lit "John Smith") = true) by reflexivity.
  exact (generateEmail_ignores_case (lit "John Smith") H).
Defined.

Lemma only_admins_insert_witness :
  length (imported_users
            (db (snd (serve 2025 samplePlatform sampleRequest adminWorld))))
  = 1%nat
  /\ exists authHeader user_id,
       streq (method sampleRequest) (lit "OPTIONS") = false
       /\ authorization sampleRequest = Some authHeader
       /\ authUser samplePlatform (tokenOf authHeader) = Some user_id
       /\ roleQueryError samplePlatform = None
       /\ holdsAdmin (db adminWorld) user_id = true.
Proof.
  split; [vm_compute; reflexivity|].
  apply (only_admins_insert 2025 samplePlatform sampleRequest adminWorld).
  vm_compute. intros Hc. discriminate Hc.
Defined.

Lemma passwords_use_fresh_bytes_witness :
  exists users,
    body (fst (serve 2025 samplePlatform sampleRequest adminWorld))
    = SuccessBody users 1
    /\ drawn (snd (serve 2025 samplePlatform sampleRequest adminWorld))
       = (drawn adminWorld + 16 * length users)%nat.
Proof.
  destruct (body (fst (serve 2025 samplePlatform sampleRequest adminWorld)))
    as [| |users count] eqn:E; try (vm_compute in E; discriminate E).
  destruct (passwords_use_fresh_bytes 2025 samplePlatform sampleRequest
              adminWorld users count E) as (Hcount & _ & Hdrawn & _).
  exists users. split; [|exact Hdrawn].
  f_equal. vm_compute in E. injection E as _ <-. reflexivity.
Defined.

Lemma unauthenticated_requests_get_400_witness :
  serve 2025 samplePlatform anonymousRequest sampleWorld
  = (jsonResponse (ErrorBody (lit "No authorization header")) 400,
     sampleWorld).
Proof.
  exact (proj1 (unauthenticated_requests_get_400 2025 samplePlatform
                  anonymousRequest sampleWorld eq_refl)
           (or_introl eq_refl)).
Defined.

Lemma bearer_prefix_is_optional_witness :
  serve 2025 samplePlatform sampleRequest adminWorld
  = serve 2025 samplePlatform
      {| method := lit "POST"; authorization := Some (lit "t1");
         json := Return (Some sampleCsv) |} adminWorld.
Proof.
  assert (Hne : lit "t1" <> []) by discriminate.
  exact (bearer_prefix_is_optional 2025 samplePlatform (lit "POST")
           (lit "t1") (Return (Some sampleCsv)) adminWorld Hne eq_refl).
Defined.

Lemma permissive_short_lines_are_dropped_witness :
  Permissive.parseCSV shortLinesCsv = Return [].
Proof.
  apply permissive_short_lines_are_dropped;
    try (vm_compute; intros Hc; discriminate Hc).
  repeat constructor.
Defined.

Lemma permissive_rows_defined_when_lines_are_long_witness :
  exists rows,
    Permissive.parseCSV sampleCsv = Return rows /\ Forall allDefined rows.
Proof.
  destruct (Permissive.parseCSV sampleCsv) as [rows|e] eqn:E;
    [|vm_compute in E; discriminate E].
  exists rows. split; [reflexivity|].
  apply (permissive_rows_defined_when_lines_are_long sampleCsv rows E).
  repeat constructor.
Defined.

Lemma permissive_undefined_field_gives_400_witness :
  status (fst (Permissive.serve samplePlatform undefinedFieldRequest
                 sampleWorld)) = 400%Z
  /\ db (snd (Permissive.serve samplePlatform undefinedFieldRequest
                sampleWorld)) = db sampleWorld.
Proof.
  assert (Hne : lit "Bearer t1" <> []) by discriminate.
  assert (Hcsv : undefinedFieldCsv <> []) by discriminate.
  assert (Hp : Permissive.parseCSV undefinedFieldCsv
               = Return [{| name := Some (lit "3"); postal_code := None;
                            birthday := None |}])
    by (vm_compute; reflexivity).
  destruct (permissive_undefined_field_gives_400 samplePlatform
              undefinedFieldRequest sampleWorld (lit "Bearer t1") (lit "u1")
              undefinedFieldCsv _ eq_refl eq_refl Hne eq_refl eq_refl Hcsv Hp)
    as (m & ->).
  - apply Exists_cons_hd. unfold allDefined. cbn [postal_code]. tauto.
  - split; reflexivity.
Defined.

Lemma generatePassword_length_witness :
  (8 <= length (Permissive.generatePassword (lit "John Smith")
                  (lit "12345") (lit "1990-01-02")) <= 11)%nat.
Proof.
  assert (Hn : forallb nameClass (lit "John Smith") = true) by reflexivity.
  exact (generatePassword_length (lit "John Smith") (lit "12345")
           (lit "1990-01-02") Hn eq_refl).
Defined.

Lemma export_is_read_back_witness :
  parseCSV 2025 (downloadCSV [bobUser]) = Return [bobRow].
Proof.
  assert (Hcount : (1 <= length [bobUser] <= 1000)%nat) by (cbn; lia).
  assert (Hsize : (strlen (downloadCSV [bobUser]) <= 5 * 1024 * 1024)%Z)
    by (vm_compute; intros Hc; discriminate Hc).
  assert (Hex : Forall (exportable 2025) [bobUser]).
  { repeat constructor; reflexivity. }
  exact (export_is_read_back 2025 [bobUser] Hcount Hsize Hex).
Defined.
